(** * Order fulfilment saga: a shallow embedding

    The development follows the Python sources of the repository:

    - [database/models.py]      the three tables [Order], [Payment], [Event];
    - [business_functions.py]   the five operations on the database;
    - [activities.py]           the activities wrapping the operations;
    - [workflows.py]            [OrderWorkflow] and [ShippingWorkflow].

    Python values are modelled by the records and variants below, a raised
    exception by the [Raise] constructor of [result], and the database by an
    explicit state that every operation takes and returns. *)

From Stdlib Require Import String List ZArith Bool Arith Lia.
Import ListNotations.
Local Open Scope string_scope.
Local Open Scope list_scope.

Set Implicit Arguments.

(* ================================================================= *)
(** ** Python values *)

(** Numbers keep the distinction between [int] and [float] that the charge
    operation introduces with [float(...)].  Only whole amounts occur (a sum
    of integer quantities), so a float is represented by the integer it
    holds; binary rounding of very large amounts is outside this model. *)
Inductive pynum : Type :=
| PyInt (z : Z)
| PyFloat (z : Z).

Definition num_value (n : pynum) : Z :=
  match n with PyInt z => z | PyFloat z => z end.

(** Python's [==] on numbers compares the values: [1 == 1.0]. *)
Definition py_num_eq (a b : pynum) : bool := (num_value a =? num_value b)%Z.

(** An exception: its class, its message ([str(e)]) and the exception that
    was being handled when it was raised ([__context__]). *)
Inductive exn : Type :=
| Exn (cls msg : string)
| ExnFrom (cls msg : string) (context : exn).

Definition exn_class (e : exn) : string :=
  match e with Exn c _ => c | ExnFrom c _ _ => c end.
Definition str (e : exn) : string :=
  match e with Exn _ m => m | ExnFrom _ m _ => m end.

Definition ValueError (msg : string) : exn := Exn "ValueError" msg.
Definition RuntimeError (msg : string) : exn := Exn "RuntimeError" msg.
Definition IntegrityError (msg : string) : exn := Exn "IntegrityError" msg.
Definition AttributeError (msg : string) : exn := Exn "AttributeError" msg.
Definition CancelledError : exn := Exn "CancelledError" "".

Inductive result (A : Type) : Type :=
| Ok (a : A)
| Raise (e : exn).
Arguments Ok {A} a.
Arguments Raise {A} e.

(** A JSON payload, as stored in [Event.payload_json]. *)
Inductive json : Type :=
| JStr (s : string)
| JNum (n : pynum).

Definition Dict : Type := list (string * json).

(** The order dictionary passed between the steps:
    [{"order_id": ..., "items": [{"sku": ..., "qty": ...}]}].  A missing
    ["order_id"] is [None]; a missing ["items"] and an empty list are both
    the empty list (the code reads the key with [order.get("items")] and
    [order.get("items", [])], which do not tell them apart). *)
Record Item : Type := { sku : string; qty : option Z }.
Record OrderData : Type := { od_order_id : option string; od_items : list Item }.

(* ================================================================= *)
(** ** database/models.py *)

Record Order : Type := {
  o_id : string;                (* primary key *)
  o_state : string;
  o_address_json : Dict;
  o_created_at : nat;
  o_updated_at : nat
}.

Record Payment : Type := {
  p_payment_id : string;        (* primary key *)
  p_order_id : string;          (* foreign key to orders.id, not null *)
  p_status : string;
  p_amount : Z;                 (* Float column holding a whole amount *)
  p_created_at : nat
}.

Record Event : Type := {
  e_id : nat;                   (* autoincrement *)
  e_order_id : string;          (* foreign key to orders.id, not null *)
  e_type : string;
  e_payload_json : Dict;
  e_ts : nat                    (* server_default=func.now() *)
}.

(** The database.  [clock] is the server clock read by [func.now()]: a
    counter that advances with every committed transaction, so that two
    transactions never read the same time. *)
Record DB : Type := {
  orders : list Order;
  payments : list Payment;
  events : list Event;
  next_event_id : nat;
  clock : nat
}.

Definition empty_db : DB :=
  {| orders := []; payments := []; events := []; next_event_id := 1; clock := 0 |}.

Definition set_orders (l : list Order) (db : DB) : DB :=
  {| orders := l; payments := payments db; events := events db;
     next_event_id := next_event_id db; clock := clock db |}.

Definition set_payments (l : list Payment) (db : DB) : DB :=
  {| orders := orders db; payments := l; events := events db;
     next_event_id := next_event_id db; clock := clock db |}.

(** [session.commit()]: the transaction becomes durable and time passes. *)
Definition commit (db : DB) : DB :=
  {| orders := orders db; payments := payments db; events := events db;
     next_event_id := next_event_id db; clock := S (clock db) |}.

(** [session.get(Order, key)] and [session.get(Payment, key)]. *)
Definition session_get_order (db : DB) (key : option string) : option Order :=
  match key with
  | None => None
  | Some k => find (fun o => o_id o =? k) (orders db)
  end.

Definition session_get_payment (db : DB) (key : string) : option Payment :=
  find (fun p => p_payment_id p =? key) (payments db).

(** [session.add(Order(...))]. *)
Definition add_order (k st : string) (addr : Dict) (db : DB) : DB :=
  set_orders (orders db ++ [ {| o_id := k; o_state := st; o_address_json := addr;
                                o_created_at := clock db; o_updated_at := clock db |} ]) db.

(** [db_order.state = st] on the row whose key is [k]. *)
Definition set_order_state (k st : string) (db : DB) : DB :=
  set_orders
    (map (fun o => if o_id o =? k
                   then {| o_id := o_id o; o_state := st;
                           o_address_json := o_address_json o;
                           o_created_at := o_created_at o;
                           o_updated_at := clock db |}
                   else o)
         (orders db)) db.

(** [session.add(Event(...))]: the row is refused when the order id is NULL
    or names no order (the foreign key of [Event.order_id]). *)
Definition add_event (oid : option string) (ty : string) (payload : Dict) (db : DB)
  : result DB :=
  match oid with
  | None => Raise (IntegrityError "null value in column order_id")
  | Some k =>
    if existsb (fun o => o_id o =? k) (orders db) then
      Ok {| orders := orders db; payments := payments db;
            events := events db ++ [ {| e_id := next_event_id db; e_order_id := k;
                                        e_type := ty; e_payload_json := payload;
                                        e_ts := clock db |} ];
            next_event_id := S (next_event_id db); clock := clock db |}
    else Raise (IntegrityError "order_id is not present in table orders")
  end.

(** [INSERT INTO payments ... ON CONFLICT (payment_id) DO NOTHING
    RETURNING payment_id]: the new database and the returned key, if any. *)
Definition insert_payment_on_conflict_do_nothing
    (pid : string) (oid : option string) (st : string) (amount : Z) (db : DB)
  : result (DB * option string) :=
  if existsb (fun p => p_payment_id p =? pid) (payments db) then Ok (db, None)
  else
    match oid with
    | None => Raise (IntegrityError "null value in column order_id")
    | Some k =>
      if existsb (fun o => o_id o =? k) (orders db) then
        Ok (set_payments (payments db ++ [ {| p_payment_id := pid; p_order_id := k;
                                              p_status := st; p_amount := amount;
                                              p_created_at := clock db |} ]) db,
            Some pid)
      else Raise (IntegrityError "order_id is not present in table orders")
    end.

(** [SELECT 1 FROM events WHERE order_id = :order_id AND type = ty]. *)
Definition select_event (oid : option string) (ty : string) (db : DB) : bool :=
  match oid with
  | None => false
  | Some k => existsb (fun e => (e_order_id e =? k) && (e_type e =? ty)) (events db)
  end.

(** Truth value of [result.scalar()]: [None] and the empty string are
    falsy. *)
Definition scalar_truthy (r : option string) : bool :=
  match r with
  | None => false
  | Some s => negb (s =? "")
  end.

(* ================================================================= *)
(** ** business_functions.py *)

(** The random draw of [flaky_call]: below 0.33 it raises, below 0.67 it
    sleeps for 300 seconds, far beyond the 100 ms the caller allows, so the
    attempt ends in the cancellation that [handle_flaky_call] reports as a
    timeout; otherwise it returns.  The draw is made before the operation
    touches the database, and this is the only place where an attempt is
    cut short: an operation that gets past it runs to its end, one attempt
    at a time. *)
Inductive draw : Type := Fails | Stalls | Passes.

Definition flaky_call (d : draw) : option exn :=
  match d with
  | Fails => Some (RuntimeError "Forced failure for testing")
  | Stalls => Some CancelledError
  | Passes => None
  end.

Definition received_order (order_id : string) : OrderData :=
  {| od_order_id := Some order_id; od_items := [ {| sku := "ABC"; qty := Some 1%Z |} ] |}.

Definition default_address : Dict :=
  [("street", JStr "Default Address"); ("city", JStr "Default City")].

Definition order_received (order_id : string) (d : draw) (db : DB)
  : result OrderData * DB :=
  match flaky_call d with
  | Some e => (Raise e, db)
  | None =>
    match session_get_order db (Some order_id) with
    | Some _ => (Ok (received_order order_id), db)
    | None =>
      (* first transaction: the order *)
      let db1 := commit (add_order order_id "received" default_address db) in
      (* second transaction: the event *)
      match add_event (Some order_id) "order_received"
                      [("order_id", JStr order_id)] db1 with
      | Raise e => (Raise e, db1)
      | Ok db2 => (Ok (received_order order_id), commit db2)
      end
    end
  end.

Definition json_of_id (k : option string) : json :=
  match k with Some s => JStr s | None => JStr "" end.

Definition order_validated (order : OrderData) (d : draw) (db : DB)
  : result bool * DB :=
  match flaky_call d with
  | Some e => (Raise e, db)
  | None =>
    match od_items order with
    | [] => (Raise (ValueError "No items to validate"), db)
    | _ :: _ =>
      let order_id := od_order_id order in
      match session_get_order db order_id with
      | None => (Raise (ValueError "Order not found"), db)
      | Some db_order =>
        if o_state db_order =? "validated" then (Ok true, db)
        else
          let db1 := set_order_state (o_id db_order) "validated" db in
          match add_event order_id "order_validated"
                          [("order_id", json_of_id order_id);
                           ("status", JStr "validated")] db1 with
          | Raise e => (Raise e, db)
          | Ok db2 => (Ok true, commit db2)
          end
      end
    end
  end.

(** [{"status": ..., "amount": ...}]. *)
Record PaymentResult : Type := { pr_status : string; pr_amount : pynum }.

(** [i.get("qty", 1)] and [sum(... for i in order.get("items", []))]. *)
Definition item_qty (i : Item) : Z :=
  match qty i with Some q => q | None => 1%Z end.

Definition order_amount (order : OrderData) : Z :=
  fold_left Z.add (map item_qty (od_items order)) 0%Z.

Definition payment_charged (order : OrderData) (payment_id : string) (d : draw) (db : DB)
  : result PaymentResult * DB :=
  match flaky_call d with
  | Some e => (Raise e, db)
  | None =>
    let order_id := od_order_id order in
    let amount := order_amount order in
    match session_get_payment db payment_id with
    | Some existing_payment =>
      (Ok {| pr_status := p_status existing_payment;
             pr_amount := PyFloat (p_amount existing_payment) |}, db)
    | None =>
      match insert_payment_on_conflict_do_nothing payment_id order_id "charged" amount db with
      | Raise e => (Raise e, db)
      | Ok (db1, returning) =>
        if negb (scalar_truthy returning) then
          (* the session is left without a commit: what it wrote is lost *)
          match session_get_payment db1 payment_id with
          | Some existing_payment =>
            (Ok {| pr_status := p_status existing_payment;
                   pr_amount := PyFloat (p_amount existing_payment) |}, db)
          | None => (Raise (AttributeError "'NoneType' object has no attribute 'status'"), db)
          end
        else
          let db2 := match session_get_order db1 order_id with
                     | Some db_order => set_order_state (o_id db_order) "paid" db1
                     | None => db1
                     end in
          match add_event order_id "payment_charged"
                          [("payment_id", JStr payment_id);
                           ("amount", JNum (PyInt amount))] db2 with
          | Raise e => (Raise e, db)
          | Ok db3 => (Ok {| pr_status := "charged"; pr_amount := PyInt amount |}, commit db3)
          end
      end
    end
  end.

Definition package_prepared (order : OrderData) (d : draw) (db : DB)
  : result string * DB :=
  match flaky_call d with
  | Some e => (Raise e, db)
  | None =>
    let order_id := od_order_id order in
    if select_event order_id "package_prepared" db then (Ok "Package ready", db)
    else
      match add_event order_id "package_prepared"
                      [("order_id", json_of_id order_id); ("status", JStr "prepared")] db with
      | Raise e => (Raise e, db)
      | Ok db1 => (Ok "Package ready", commit db1)
      end
  end.

Definition carrier_dispatched (order : OrderData) (d : draw) (db : DB)
  : result string * DB :=
  match flaky_call d with
  | Some e => (Raise e, db)
  | None =>
    let order_id := od_order_id order in
    if select_event order_id "carrier_dispatched" db then (Ok "Dispatched", db)
    else
      match add_event order_id "carrier_dispatched"
                      [("order_id", json_of_id order_id); ("status", JStr "dispatched")] db with
      | Raise e => (Raise e, db)
      | Ok db1 => (Ok "Dispatched", commit db1)
      end
  end.

(* ================================================================= *)
(** ** activities.py *)

(** [handle_flaky_call] logs the failure and raises it again. *)
Definition handle_flaky_call (A : Type) (r : result A * DB) : result A * DB := r.

Definition receive_order_activity (order_id : string) (d : draw) (db : DB) :=
  handle_flaky_call (order_received order_id d db).
Definition validate_order_activity (order : OrderData) (d : draw) (db : DB) :=
  handle_flaky_call (order_validated order d db).
Definition charge_payment_activity (order : OrderData) (payment_id : string)
    (d : draw) (db : DB) :=
  handle_flaky_call (payment_charged order payment_id d db).
Definition prepare_package_activity (order : OrderData) (d : draw) (db : DB) :=
  handle_flaky_call (package_prepared order d db).
Definition dispatch_carrier_activity (order : OrderData) (d : draw) (db : DB) :=
  handle_flaky_call (carrier_dispatched order d db).

(* ================================================================= *)
(** ** workflows.py: the state of [OrderWorkflow], its signals and query *)

Record OrderWorkflow : Type := {
  _order_id : string;
  _payment_id : string;
  _order_data : OrderData;
  _shipping_address : Dict;
  _is_cancelled : bool;
  _current_step : string
}.

(** [__init__]; the empty dictionary has neither ["order_id"] nor
    ["items"]. *)
Definition OrderWorkflow_init : OrderWorkflow :=
  {| _order_id := ""; _payment_id := "";
     _order_data := {| od_order_id := None; od_items := [] |};
     _shipping_address := []; _is_cancelled := false;
     _current_step := "initialized" |}.

Definition set_current_step (p : string) (w : OrderWorkflow) : OrderWorkflow :=
  {| _order_id := _order_id w; _payment_id := _payment_id w;
     _order_data := _order_data w; _shipping_address := _shipping_address w;
     _is_cancelled := _is_cancelled w; _current_step := p |}.

Definition set_order_data (o : OrderData) (w : OrderWorkflow) : OrderWorkflow :=
  {| _order_id := _order_id w; _payment_id := _payment_id w;
     _order_data := o; _shipping_address := _shipping_address w;
     _is_cancelled := _is_cancelled w; _current_step := _current_step w |}.

Definition cancel_order (w : OrderWorkflow) : OrderWorkflow :=
  {| _order_id := _order_id w; _payment_id := _payment_id w;
     _order_data := _order_data w; _shipping_address := _shipping_address w;
     _is_cancelled := true; _current_step := "cancelled" |}.

Definition update_address (address : Dict) (w : OrderWorkflow) : OrderWorkflow :=
  {| _order_id := _order_id w; _payment_id := _payment_id w;
     _order_data := _order_data w; _shipping_address := address;
     _is_cancelled := _is_cancelled w; _current_step := "address_updated" |}.

(** The dictionary returned by the query. *)
Record Status : Type := {
  st_order_id : string;
  st_current_step : string;
  st_is_cancelled : bool;
  st_shipping_address : Dict;
  st_order_data : OrderData
}.

Definition get_status (w : OrderWorkflow) : Status :=
  {| st_order_id := _order_id w; st_current_step := _current_step w;
     st_is_cancelled := _is_cancelled w;
     st_shipping_address := _shipping_address w;
     st_order_data := _order_data w |}.

(* ================================================================= *)
(** ** The step executor *)

(** The retry policy both workflows build: no attempt bound is given
    ([maximum_attempts] keeps its default 0, which means no limit) and no
    error type is excluded from retrying. *)
Record RetryPolicy : Type := {
  initial_interval_ms : nat;
  maximum_interval_ms : nat;
  backoff_coefficient : nat;
  maximum_attempts : nat;
  non_retryable_error_types : list string
}.

Definition retry_policy : RetryPolicy :=
  {| initial_interval_ms := 1; maximum_interval_ms := 10; backoff_coefficient := 1;
     maximum_attempts := 0; non_retryable_error_types := [] |}.

(** Whether another attempt follows the [n]-th one, which failed with [e]. *)
Definition retries (p : RetryPolicy) (n : nat) (e : exn) : bool :=
  negb (existsb (String.eqb (exn_class e)) (non_retryable_error_types p))
  && ((maximum_attempts p =? 0)%nat || (n <? maximum_attempts p)%nat).

Definition ActivityError (cause : exn) : exn :=
  ExnFrom "ActivityError" "Activity task failed" cause.
Definition ChildWorkflowError (cause : exn) : exn :=
  ExnFrom "ChildWorkflowError" "Child Workflow execution failed" cause.

Inductive signal : Type :=
| CancelOrder
| UpdateAddress (address : Dict).

(** What happens to a saga from outside: the runtime enters [run], delivers
    a signal, runs one attempt of the awaited activity (with the draw of its
    [flaky_call]), gives the awaited activity up with an error of its own, or
    fires the timer of [workflow.sleep]. *)
Inductive event : Type :=
| Start (order_id payment_id : string)
| Signal (s : signal)
| Attempt (d : draw)
| GiveUp (e : exn)
| TimerFired.

Inductive awaited (A : Type) : Type :=
| Resolved (a : A)
| Rejected (e : exn)
| Pending.
Arguments Resolved {A} a.
Arguments Rejected {A} e.
Arguments Pending {A}.

(** [workflow.execute_activity(act, ..., retry_policy=retry_policy)] while
    [attempt] attempts have failed so far. *)
Definition execute_activity (A : Type) (act : draw -> DB -> result A * DB)
    (attempt : nat) (ev : event) (db : DB) : awaited A * DB * nat :=
  match ev with
  | Attempt d =>
    match act d db with
    | (Ok a, db') => (Resolved a, db', 0)
    | (Raise e, db') =>
      if retries retry_policy (S attempt) e then (Pending, db', S attempt)
      else (Rejected (ActivityError e), db', 0)
    end
  | GiveUp e => (Rejected e, db, 0)
  | _ => (Pending, db, attempt)
  end.

(* ================================================================= *)
(** ** workflows.py: [ShippingWorkflow.run] *)

Record ShippingWorkflow : Type := {
  sh_order_data : OrderData;
  _dispatch_failed : bool;
  _failure_reason : string
}.

Record ShippingResult : Type := {
  sr_status : string;
  sr_package_status : string;
  sr_dispatch_status : string
}.

(** Where the coroutine of the child is suspended, or how it ended. *)
Inductive shipping_pc : Type :=
| PreparePackage
| DispatchCarrier (package_status : string)
| ShReturned (r : ShippingResult)
| ShRaised (e : exn).

Definition ShippingWorkflow_start (order_data : OrderData) : ShippingWorkflow :=
  {| sh_order_data := order_data; _dispatch_failed := false; _failure_reason := "" |}.

(** The [except] clause of the child. *)
Definition shipping_failed (e : exn) (c : ShippingWorkflow) : ShippingWorkflow * shipping_pc :=
  ({| sh_order_data := sh_order_data c; _dispatch_failed := true;
      _failure_reason := str e |},
   ShRaised (ExnFrom "RuntimeError" ("Shipping failed: " ++ str e) e)).

Definition shipping_step (c : ShippingWorkflow) (cpc : shipping_pc) (attempt : nat)
    (ev : event) (db : DB) : ShippingWorkflow * shipping_pc * DB * nat :=
  match cpc with
  | PreparePackage =>
    match execute_activity (prepare_package_activity (sh_order_data c)) attempt ev db with
    | (Resolved package_status, db', n) => (c, DispatchCarrier package_status, db', n)
    | (Rejected e, db', n) => (shipping_failed e c, db', n)
    | (Pending, db', n) => (c, PreparePackage, db', n)
    end
  | DispatchCarrier package_status =>
    match execute_activity (dispatch_carrier_activity (sh_order_data c)) attempt ev db with
    | (Resolved dispatch_status, db', n) =>
      (c, ShReturned {| sr_status := "shipped"; sr_package_status := package_status;
                        sr_dispatch_status := dispatch_status |}, db', n)
    | (Rejected e, db', n) => (shipping_failed e c, db', n)
    | (Pending, db', n) => (c, DispatchCarrier package_status, db', n)
    end
  | ShReturned _ | ShRaised _ => (c, cpc, db, attempt)
  end.

(* ================================================================= *)
(** ** workflows.py: [OrderWorkflow.run] *)

(** What [run] returns: [{"status": "cancelled", "step": ...}] or the
    completion dictionary (its [execution_time], a wall-clock measure, is
    left out). *)
Inductive run_result : Type :=
| RCancelled (step : string)
| RCompleted (order_id : string) (payment_result : PaymentResult)
             (shipping_result : ShippingResult).

(** Where the coroutine of [run] is suspended, or how it ended.  The
    suspension points are the [await]s of the source; [NotStarted] is the
    instance after [__init__], which can already handle signals. *)
Inductive order_pc : Type :=
| NotStarted
| ReceiveOrder
| ValidateOrder
| ManualReview
| ChargePayment
| Shipping (payment_result : PaymentResult) (child : ShippingWorkflow) (cpc : shipping_pc)
| Returned (r : run_result)
| Raised (e : exn).

Record Saga : Type := {
  pc : order_pc;
  wf : OrderWorkflow;
  db : DB;
  attempt : nat
}.

Definition saga_init (db0 : DB) : Saga :=
  {| pc := NotStarted; wf := OrderWorkflow_init; db := db0; attempt := 0 |}.

Definition closed (p : order_pc) : bool :=
  match p with Returned _ | Raised _ => true | _ => false end.

Definition handle_signal (sg : signal) (w : OrderWorkflow) : OrderWorkflow :=
  match sg with
  | CancelOrder => cancel_order w
  | UpdateAddress address => update_address address w
  end.

(** The [except] clause of [run]. *)
Definition run_failed (e : exn) (w : OrderWorkflow) (d : DB) : Saga :=
  {| pc := Raised e; wf := set_current_step "failed" w; db := d; attempt := 0 |}.

Definition run_returns (r : run_result) (w : OrderWorkflow) (d : DB) : Saga :=
  {| pc := Returned r; wf := w; db := d; attempt := 0 |}.

Definition suspend (p : order_pc) (w : OrderWorkflow) (d : DB) (n : nat) : Saga :=
  {| pc := p; wf := w; db := d; attempt := n |}.

(** From the entry of [run] to the first [await]. *)
Definition enter_run (order_id payment_id : string) (w : OrderWorkflow) (d : DB) : Saga :=
  let w := {| _order_id := order_id; _payment_id := payment_id;
              _order_data := _order_data w; _shipping_address := _shipping_address w;
              _is_cancelled := _is_cancelled w; _current_step := "started" |} in
  suspend ReceiveOrder (set_current_step "receiving_order" w) d 0.

(** From the result of the receive step to the next [await]. *)
Definition after_receive (order_data : OrderData) (w : OrderWorkflow) (d : DB) : Saga :=
  let w := set_order_data order_data w in
  if _is_cancelled w then run_returns (RCancelled "order_received") w d
  else suspend ValidateOrder (set_current_step "validating_order" w) d 0.

Definition after_validate (validation_result : bool) (w : OrderWorkflow) (d : DB) : Saga :=
  if negb validation_result then run_failed (ValueError "Order validation failed") w d
  else if _is_cancelled w then run_returns (RCancelled "order_validated") w d
  else suspend ManualReview (set_current_step "manual_review" w) d 0.

Definition after_review (w : OrderWorkflow) (d : DB) : Saga :=
  if _is_cancelled w then run_returns (RCancelled "manual_review") w d
  else suspend ChargePayment (set_current_step "charging_payment" w) d 0.

Definition after_charge (payment_result : PaymentResult) (w : OrderWorkflow) (d : DB) : Saga :=
  if negb (pr_status payment_result =? "charged")
  then run_failed (RuntimeError "Payment failed") w d
  else if _is_cancelled w then run_returns (RCancelled "payment_charged") w d
  else
    let w := set_current_step "starting_shipping" w in
    if _is_cancelled w then run_returns (RCancelled "shipping_started") w d
    else suspend (Shipping payment_result (ShippingWorkflow_start (_order_data w))
                           PreparePackage) w d 0.

Definition after_shipping (payment_result : PaymentResult) (shipping_result : ShippingResult)
    (w : OrderWorkflow) (d : DB) : Saga :=
  let w := set_current_step "completed" w in
  run_returns (RCompleted (_order_id w) payment_result shipping_result) w d.

(** The coroutine is resumed by what it awaits. *)
Definition advance (s : Saga) (ev : event) : Saga :=
  let w := wf s in
  match pc s with
  | NotStarted =>
    match ev with
    | Start order_id payment_id => enter_run order_id payment_id w (db s)
    | _ => s
    end
  | ReceiveOrder =>
    match execute_activity (receive_order_activity (_order_id w)) (attempt s) ev (db s) with
    | (Resolved order_data, d, _) => after_receive order_data w d
    | (Rejected e, d, _) => run_failed e w d
    | (Pending, d, n) => suspend ReceiveOrder w d n
    end
  | ValidateOrder =>
    match execute_activity (validate_order_activity (_order_data w)) (attempt s) ev (db s) with
    | (Resolved validation_result, d, _) => after_validate validation_result w d
    | (Rejected e, d, _) => run_failed e w d
    | (Pending, d, n) => suspend ValidateOrder w d n
    end
  | ManualReview =>
    match ev with
    | TimerFired => after_review w (db s)
    | _ => s
    end
  | ChargePayment =>
    match execute_activity (charge_payment_activity (_order_data w) (_payment_id w))
                           (attempt s) ev (db s) with
    | (Resolved payment_result, d, _) => after_charge payment_result w d
    | (Rejected e, d, _) => run_failed e w d
    | (Pending, d, n) => suspend ChargePayment w d n
    end
  | Shipping payment_result child cpc =>
    match shipping_step child cpc (attempt s) ev (db s) with
    | (_, ShReturned shipping_result, d, _) => after_shipping payment_result shipping_result w d
    | (_, ShRaised e, d, _) => run_failed (ChildWorkflowError e) w d
    | (child', cpc', d, n) => suspend (Shipping payment_result child' cpc') w d n
    end
  | Returned _ | Raised _ => s
  end.

(** One event.  A closed saga takes none; a signal runs its handler on the
    instance without resuming the coroutine. *)
Definition step (s : Saga) (ev : event) : Saga :=
  if closed (pc s) then s
  else
    match ev with
    | Signal sg => suspend (pc s) (handle_signal sg (wf s)) (db s) (attempt s)
    | _ => advance s ev
    end.

Definition exec (s : Saga) (evs : list event) : Saga := fold_left step evs s.

(** The states of a saga that is started, if at all, for [order_id] and
    [payment_id] on the database [db0]. *)
Definition starts (order_id payment_id : string) (ev : event) : Prop :=
  match ev with
  | Start o p => o = order_id /\ p = payment_id
  | _ => True
  end.

Definition reachable (db0 : DB) (order_id payment_id : string) (s : Saga) : Prop :=
  exists evs, Forall (starts order_id payment_id) evs /\ s = exec (saga_init db0) evs.

(* ================================================================= *)
(** * Notions used in the properties *)

(* ----------------------------------------------------------------- *)
(** ** The rows of one order and one payment *)

(** The Event types of the five steps, in the order of the steps. *)
Definition saga_steps : list string :=
  ["order_received"; "order_validated"; "payment_charged"; "package_prepared";
   "carrier_dispatched"].

(** The events recorded for an order, oldest first. *)
Definition events_of (oid : string) (d : DB) : list Event :=
  filter (fun e => e_order_id e =? oid) (events d).

(** Their types. *)
Definition event_types (oid : string) (d : DB) : list string :=
  map e_type (events_of oid d).

(** The number of events of one type recorded for an order. *)
Definition event_count (oid ty : string) (d : DB) : nat :=
  count_occ string_dec (event_types oid d) ty.

(** The order has an event of the type. *)
Definition has_event (oid ty : string) (d : DB) : bool :=
  existsb (fun t => t =? ty) (event_types oid d).

(** The orders table has a row for the order. *)
Definition order_exists (oid : string) (d : DB) : bool :=
  existsb (fun o => o_id o =? oid) (orders d).

(** The number of rows of the payments table for a payment id. *)
Definition payment_rows (pid : string) (d : DB) : nat :=
  length (filter (fun p => p_payment_id p =? pid) (payments d)).


(** Each number is smaller than the next. *)
Fixpoint strictly_increasing (l : list nat) : Prop :=
  match l with
  | [] => True
  | x :: l' =>
    match l' with [] => True | y :: _ => x < y end /\ strictly_increasing l'
  end.

(** The part of the invariant about the events of the order: they are the
    events of the first [n] steps, in the order of the steps, one each,
    with strictly increasing timestamps, all in the past. *)
Definition log (oid : string) (n : nat) (d : DB) : Prop :=
  event_types oid d = firstn n saga_steps
  /\ strictly_increasing (map e_ts (events_of oid d))
  /\ Forall (fun e => e_ts e < clock d) (events_of oid d).

(** The database after the first [n] steps of the saga. *)
Definition progress (oid pid : string) (n : nat) (d : DB) : Prop :=
  log oid n d
  /\ n <= 5
  /\ order_exists oid d = (0 <? n)%nat
  /\ (n = 1 -> forall o, session_get_order d (Some oid) = Some o -> o_state o = "received")
  /\ payment_rows pid d = (if (n <? 3)%nat then 0 else 1).

(** A database that holds nothing yet for the order and the payment. *)
Definition fresh (oid pid : string) (d : DB) : Prop :=
  order_exists oid d = false /\ events_of oid d = [] /\ payment_rows pid d = 0.

(* ----------------------------------------------------------------- *)
(** ** The result of the charge operation *)


(* ----------------------------------------------------------------- *)
(** ** Phases *)

(** A phase written by a signal handler. *)
Definition signalled (p : string) : bool :=
  (p =? "cancelled") || (p =? "address_updated").

(** Which phases go with which suspension point.  A running saga shows the
    phase of the step it awaits until a signal overwrites it; the phase
    "cancelled" is only ever written together with the flag. *)
Definition phase_ok (s : Saga) : bool :=
  let p := _current_step (wf s) in
  let c := _is_cancelled (wf s) in
  implb (p =? "cancelled") c &&
  match pc s with
  | NotStarted => (p =? "initialized") && negb c || signalled p
  | ReceiveOrder => (p =? "receiving_order") || signalled p
  | ValidateOrder => (p =? "validating_order") && negb c || signalled p
  | ManualReview => (p =? "manual_review") && negb c || signalled p
  | ChargePayment => (p =? "charging_payment") && negb c || signalled p
  | Shipping _ _ _ => (p =? "starting_shipping") && negb c || signalled p
  | Returned (RCompleted _ _ _) => p =? "completed"
  | Returned (RCancelled _) => c && (signalled p || (p =? "receiving_order"))
  | Raised _ => p =? "failed"
  end.

(** The phases listed by the specification, and the phases the code can
    show: the handler of the address-update signal writes one more. *)
Definition spec_phases : list string :=
  ["initialized"; "receiving_order"; "validating_order"; "manual_review";
   "charging_payment"; "starting_shipping"; "completed"; "cancelled"; "failed"].

Definition code_phases : list string := spec_phases ++ ["address_updated"].

(* ----------------------------------------------------------------- *)
(** ** Steps, checks and inputs *)

(** The event [ev] completes the step awaited at [s] and brings [run] to the
    cancellation check that follows it: the name under which that check
    reports the step, and the database the step leaves behind. *)
Definition checkpoint_after (s : Saga) (ev : event) : option (string * DB) :=
  match pc s, ev with
  | ReceiveOrder, Attempt d =>
    match receive_order_activity (_order_id (wf s)) d (db s) with
    | (Ok _, d') => Some ("order_received", d')
    | _ => None
    end
  | ValidateOrder, Attempt d =>
    match validate_order_activity (_order_data (wf s)) d (db s) with
    | (Ok true, d') => Some ("order_validated", d')
    | _ => None
    end
  | ManualReview, TimerFired => Some ("manual_review", db s)
  | ChargePayment, Attempt d =>
    match charge_payment_activity (_order_data (wf s)) (_payment_id (wf s)) d (db s) with
    | (Ok payment_result, d') =>
      if pr_status payment_result =? "charged" then Some ("payment_charged", d') else None
    | _ => None
    end
  | _, _ => None
  end.


(** Any event but an address update. *)
Definition keeps_address (ev : event) : bool :=
  match ev with
  | Signal (UpdateAddress _) => false
  | _ => true
  end.

(** What the dispatch step is given when it is awaited: the order data of
    the child workflow and the database. *)
Definition dispatch_input (s : Saga) : option (OrderData * DB) :=
  match pc s with
  | Shipping _ child (DispatchCarrier _) => Some (sh_order_data child, db s)
  | _ => None
  end.

(** Two sagas that differ at most in the stored shipping address and in the
    phase shown by the query. *)
Definition same_run (s1 s2 : Saga) : Prop :=
  pc s1 = pc s2 /\ db s1 = db s2 /\ attempt s1 = attempt s2
  /\ _order_id (wf s1) = _order_id (wf s2)
  /\ _payment_id (wf s1) = _payment_id (wf s2)
  /\ _order_data (wf s1) = _order_data (wf s2)
  /\ _is_cancelled (wf s1) = _is_cancelled (wf s2).

(* ----------------------------------------------------------------- *)
(** ** The progress of a run *)

(** How far the saga has come: the number of events awaited so far. *)
Definition stage (p : order_pc) : nat :=
  match p with
  | NotStarted => 0
  | ReceiveOrder => 1
  | ValidateOrder => 2
  | ManualReview => 3
  | ChargePayment => 4
  | Shipping _ _ PreparePackage => 5
  | Shipping _ _ _ => 6
  | Returned (RCompleted _ _ _) => 7
  | Returned (RCancelled _) => 8
  | Raised _ => 8
  end.

(** The event that lets a saga at stage [k] go on: the call of [run], the
    timer of the review, or an attempt that gets past the fault hook. *)
Definition resumes (k : nat) (ev : event) : bool :=
  match ev with
  | Start _ _ => (k =? 0)%nat
  | TimerFired => (k =? 3)%nat
  | Attempt Passes => (k =? 1)%nat || (k =? 2)%nat || (k =? 4)%nat || (k =? 5)%nat
                      || (k =? 6)%nat
  | _ => false
  end.

(** Neither a cancellation nor a step given up by the executor. *)
Definition harmless (ev : event) : bool :=
  match ev with
  | Signal CancelOrder => false
  | GiveUp _ => false
  | _ => true
  end.

(** An event that neither completes a step nor cancels: an attempt that
    fails in the fault hook, or an address update. *)
Definition quiet (ev : event) : bool :=
  match ev with
  | Attempt Fails | Attempt Stalls => true
  | Signal (UpdateAddress _) => true
  | _ => false
  end.

(** The stage a saga reaches when nothing is cancelled or given up. *)
Definition run_stage (k : nat) (evs : list event) : nat :=
  fold_left (fun k ev => k + (if resumes k ev then 1 else 0)) evs k.

(** What the suspension point says about the instance and about the
    number [n] of steps recorded in the database. *)
Definition level (oid pid : string) (s : Saga) (n : nat) : Prop :=
  match pc s with
  | NotStarted => n = 0
  | ReceiveOrder => n = 0 /\ _order_id (wf s) = oid /\ _payment_id (wf s) = pid
  | ValidateOrder =>
    n = 1 /\ _order_id (wf s) = oid /\ _payment_id (wf s) = pid
    /\ _order_data (wf s) = received_order oid
  | ManualReview | ChargePayment =>
    n = 2 /\ _order_id (wf s) = oid /\ _payment_id (wf s) = pid
    /\ _order_data (wf s) = received_order oid
  | Shipping payment_result child PreparePackage =>
    n = 3 /\ _order_id (wf s) = oid /\ sh_order_data child = received_order oid
    /\ pr_status payment_result = "charged"
  | Shipping payment_result child (DispatchCarrier _) =>
    n = 4 /\ _order_id (wf s) = oid /\ sh_order_data child = received_order oid
    /\ pr_status payment_result = "charged"
  | Shipping _ _ _ => False
  | Returned (RCompleted o payment_result shipping_result) =>
    n = 5 /\ o = oid /\ pr_status payment_result = "charged"
    /\ sr_status shipping_result = "shipped"
  | Returned (RCancelled _) => True
  | Raised _ => True
  end.

(** The invariant of a saga for [oid] and [pid]. *)
Definition saga_inv (oid pid : string) (s : Saga) : Prop :=
  exists n, progress oid pid n (db s) /\ level oid pid s n.

(** An uncancelled run in which every step eventually succeeds: the call of
    [run], the passing attempt of each of the five steps and the timer of
    the review, with any quiet events before, between and after them. *)
Definition successful_run (oid pid : string) (noise : nat -> list event) : list event :=
  noise 0 ++ Start oid pid ::
  noise 1 ++ Attempt Passes ::
  noise 2 ++ Attempt Passes ::
  noise 3 ++ TimerFired ::
  noise 4 ++ Attempt Passes ::
  noise 5 ++ Attempt Passes ::
  noise 6 ++ Attempt Passes ::
  noise 7.

(* ----------------------------------------------------------------- *)
(** ** Concrete runs *)

(** Every step passes at its first attempt. *)
Definition happy_path : list event :=
  [Start "order-1" "payment-1"; Attempt Passes; Attempt Passes; TimerFired;
   Attempt Passes; Attempt Passes; Attempt Passes].

(** Some addresses. *)
Definition new_address : Dict :=
  [("street", JStr "1 Main St"); ("city", JStr "Springfield")].

Definition addr_a : Dict := [("street", JStr "2 Side St"); ("city", JStr "Shelbyville")].

Definition addr_b : Dict := [("street", JStr "3 High St"); ("city", JStr "Ogdenville")].

(** The database after the receive step alone. *)
Definition db_with_order : DB :=
  snd (order_received "order-1" Passes empty_db).

(** The database a completed saga for "order-1" and "payment-1" leaves. *)
Definition db_after_first_run : DB := db (exec (saga_init empty_db) happy_path).

(** A saga whose child awaits the dispatch step. *)
Definition awaiting_dispatch : Saga :=
  exec (saga_init empty_db)
       [Start "order-1" "payment-1"; Attempt Passes; Attempt Passes; TimerFired;
        Attempt Passes; Attempt Passes].

(** A saga that is cancelled while the charge step is being retried. *)
Definition cancelled_while_charging : Saga :=
  exec (saga_init empty_db)
       [Start "order-1" "payment-1"; Attempt Passes; Attempt Passes; TimerFired;
        Attempt Fails; Signal CancelOrder].


(** A run with two address updates before dispatch, the second one being
    [address], up to the point where the dispatch step is awaited. *)
Definition run_to_dispatch (address : Dict) : Saga :=
  exec (saga_init empty_db)
       [Start "order-1" "payment-1"; Attempt Passes;
        Signal (UpdateAddress new_address); Signal (UpdateAddress address);
        Attempt Passes; TimerFired; Attempt Passes; Attempt Passes].

(* ================================================================= *)
(** * Further parts of the code *)

(* ----------------------------------------------------------------- *)
(** ** api.py and run_workflow.py: the identifiers of a saga *)

(** [StartWorkflowRequest]: the payment id is optional. *)
Record StartWorkflowRequest : Type := { req_payment_id : option string }.

(** [f"payment-{uuid.uuid4().hex[:8]}"] and, in run_workflow.py,
    [f"order-{uuid.uuid4().hex[:8]}"]; [hex8] stands for the digits drawn. *)
Definition generated_payment_id (hex8 : string) : string := "payment-" ++ hex8.
Definition generated_order_id (hex8 : string) : string := "order-" ++ hex8.

(** [request.payment_id or f"payment-..."]: [None] and the empty string are
    falsy. *)
Definition chosen_payment_id (request : StartWorkflowRequest) (hex8 : string) : string :=
  match req_payment_id request with
  | Some p => if p =? "" then generated_payment_id hex8 else p
  | None => generated_payment_id hex8
  end.

(** [f"order-workflow-{order_id}"], the id under which every endpoint
    addresses the saga of an order. *)
Definition workflow_id (order_id : string) : string := "order-workflow-" ++ order_id.

(** [start_workflow]: the id of the workflow started and the call of [run]
    it causes. *)
Definition start_workflow (order_id : string) (request : StartWorkflowRequest)
    (hex8 : string) : string * event :=
  (workflow_id order_id, Start order_id (chosen_payment_id request hex8)).

(** [AddressUpdateRequest] and its [dict()]. *)
Record AddressUpdateRequest : Type := {
  a_street : string;
  a_city : string;
  a_state : string;
  a_postal_code : string;
  a_country : string
}.

Definition address_dict (a : AddressUpdateRequest) : Dict :=
  [("street", JStr (a_street a)); ("city", JStr (a_city a)); ("state", JStr (a_state a));
   ("postal_code", JStr (a_postal_code a)); ("country", JStr (a_country a))].

(** The signals sent by the endpoints [cancel_order] and [update_address],
    and the answer of [get_workflow_status]. *)
Definition cancel_order_endpoint : event := Signal CancelOrder.

Definition update_address_endpoint (address : AddressUpdateRequest) : event :=
  Signal (UpdateAddress (address_dict address)).

Definition get_workflow_status (s : Saga) : Status := get_status (wf s).

(* ----------------------------------------------------------------- *)
(** ** [ShippingWorkflow] run on its own *)

(** The child workflow started directly, as the tests start it. *)
Record ShippingRun : Type := {
  sh_pc : shipping_pc;
  sh_wf : ShippingWorkflow;
  sh_db : DB;
  sh_attempt : nat
}.

Definition shipping_run_start (order_data : OrderData) (d : DB) : ShippingRun :=
  {| sh_pc := PreparePackage; sh_wf := ShippingWorkflow_start order_data;
     sh_db := d; sh_attempt := 0 |}.

Definition shipping_run_step (r : ShippingRun) (ev : event) : ShippingRun :=
  match shipping_step (sh_wf r) (sh_pc r) (sh_attempt r) ev (sh_db r) with
  | (c, cpc, d, n) => {| sh_pc := cpc; sh_wf := c; sh_db := d; sh_attempt := n |}
  end.

Definition shipping_run_exec (r : ShippingRun) (evs : list event) : ShippingRun :=
  fold_left shipping_run_step evs r.

(* ----------------------------------------------------------------- *)
(** ** Notions used in the further properties *)

(** An operation that raised has left the database [d] as it was. *)
Definition wrote_nothing_on_error (A : Type) (r : result A * DB) (d : DB) : Prop :=
  match fst r with
  | Raise _ => snd r = d
  | Ok _ => True
  end.



(** The order named by an order dictionary has a row. *)
Definition order_known (order : OrderData) (d : DB) : bool :=
  match od_order_id order with
  | Some k => order_exists k d
  | None => false
  end.

(** The event that [order_validated] records for the row [row]. *)
Definition order_validated_event (order : OrderData) (d : DB) (row : Order) : Event :=
  {| e_id := next_event_id d; e_order_id := o_id row; e_type := "order_validated";
     e_payload_json := [("order_id", json_of_id (od_order_id order));
                        ("status", JStr "validated")];
     e_ts := clock d |}.

(** The row and the event that a first charge records. *)
Definition new_payment_row (order : OrderData) (oid pid : string) (d : DB) : Payment :=
  {| p_payment_id := pid; p_order_id := oid; p_status := "charged";
     p_amount := order_amount order; p_created_at := clock d |}.

Definition payment_charged_event (order : OrderData) (oid pid : string) (d : DB) : Event :=
  {| e_id := next_event_id d; e_order_id := oid; e_type := "payment_charged";
     e_payload_json := [("payment_id", JStr pid);
                        ("amount", JNum (PyInt (order_amount order)))];
     e_ts := clock d |}.

(** What one of the two shipping operations does, [ty] being the type of its
    event and [answer] its result: nothing when the order has the event
    already; otherwise it records the event, after which a repetition does
    nothing, or, when the order has no row, it raises. *)
Definition records_once (op : OrderData -> draw -> DB -> result string * DB)
    (ty status answer : string) (order : OrderData) (d : DB) : Prop :=
  if select_event (od_order_id order) ty d then op order Passes d = (Ok answer, d)
  else if order_known order d then
    exists k d1,
      od_order_id order = Some k
      /\ op order Passes d = (Ok answer, d1)
      /\ events d1 = events d ++
           [ {| e_id := next_event_id d; e_order_id := k; e_type := ty;
                e_payload_json := [("order_id", JStr k); ("status", JStr status)];
                e_ts := clock d |} ]
      /\ orders d1 = orders d /\ payments d1 = payments d
      /\ select_event (od_order_id order) ty d1 = true
      /\ op order Passes d1 = (Ok answer, d1)
  else exists msg, op order Passes d = (Raise (IntegrityError msg), d).

(** One invocation of an operation by the saga, or none. *)
Inductive db_operation : Type :=
| NoOperation
| Received (order_id : string) (d : draw)
| Validated (order : OrderData) (d : draw)
| Charged (order : OrderData) (payment_id : string) (d : draw)
| Prepared (order : OrderData) (d : draw)
| Dispatched (order : OrderData) (d : draw).

Definition run_operation (o : db_operation) (db0 : DB) : DB :=
  match o with
  | NoOperation => db0
  | Received order_id d => snd (order_received order_id d db0)
  | Validated order d => snd (order_validated order d db0)
  | Charged order payment_id d => snd (payment_charged order payment_id d db0)
  | Prepared order d => snd (package_prepared order d db0)
  | Dispatched order d => snd (carrier_dispatched order d db0)
  end.

(** The invocation that an event causes at a saga: an attempt invokes the
    operation of the awaited step; nothing else touches the database. *)
Definition awaited_operation (s : Saga) (ev : event) : db_operation :=
  match ev with
  | Attempt d =>
    match pc s with
    | ReceiveOrder => Received (_order_id (wf s)) d
    | ValidateOrder => Validated (_order_data (wf s)) d
    | ChargePayment => Charged (_order_data (wf s)) (_payment_id (wf s)) d
    | Shipping _ child PreparePackage => Prepared (sh_order_data child) d
    | Shipping _ child (DispatchCarrier _) => Dispatched (sh_order_data child) d
    | _ => NoOperation
    end
  | _ => NoOperation
  end.

(** What a row of the orders table keeps for ever: its key, its address and
    its time of creation. *)
Definition order_identity (o : Order) : string * Dict * nat :=
  (o_id o, o_address_json o, o_created_at o).

(** The database [d'] holds all that [d] held: the events and the payments
    of [d] come first and unchanged, the orders of [d] come first with their
    identity, and neither the clock nor the event counter went back. *)
Definition extends (d d' : DB) : Prop :=
  (exists l, events d' = events d ++ l)
  /\ (exists l, payments d' = payments d ++ l)
  /\ (exists l, map order_identity (orders d') = map order_identity (orders d) ++ l)
  /\ clock d <= clock d'
  /\ next_event_id d <= next_event_id d'.

(** The constraints of the schema and the order of time: keys are unique,
    event ids are below the counter, every event and every payment refers
    to an order that has a row, and the events are in strict time order,
    all in the past. *)
Definition db_integrity (d : DB) : Prop :=
  NoDup (map o_id (orders d))
  /\ NoDup (map p_payment_id (payments d))
  /\ NoDup (map e_id (events d))
  /\ Forall (fun e => e_id e < next_event_id d) (events d)
  /\ Forall (fun e => order_exists (e_order_id e) d = true) (events d)
  /\ Forall (fun p => order_exists (p_order_id p) d = true) (payments d)
  /\ strictly_increasing (map e_ts (events d))
  /\ Forall (fun e => e_ts e < clock d) (events d).

(** An attempt cut short by the fault hook. *)
Definition faulty (ev : event) : bool :=
  match ev with
  | Attempt Fails | Attempt Stalls => true
  | _ => false
  end.

(** The events of a run without the attempts cut short by the fault hook. *)
Definition without_faults (evs : list event) : list event :=
  filter (fun ev => negb (faulty ev)) evs.

(** A signal. *)
Definition is_signal (ev : event) : bool :=
  match ev with
  | Signal _ => true
  | _ => false
  end.

(** The events of a run without the signals. *)
Definition without_signals (evs : list event) : list event :=
  filter (fun ev => negb (is_signal ev)) evs.

(** The phase that [run] itself writes on the way to a suspension point or
    to its end; it writes none when it returns cancelled. *)
Definition own_phase (p : order_pc) : option string :=
  match p with
  | NotStarted => Some "initialized"
  | ReceiveOrder => Some "receiving_order"
  | ValidateOrder => Some "validating_order"
  | ManualReview => Some "manual_review"
  | ChargePayment => Some "charging_payment"
  | Shipping _ _ _ => Some "starting_shipping"
  | Returned (RCompleted _ _ _) => Some "completed"
  | Returned (RCancelled _) => None
  | Raised _ => Some "failed"
  end.

(** The events recorded by the two shipping operations, for any order. *)
Definition shipping_events (d : DB) : list Event :=
  filter (fun e => (e_type e =? "package_prepared") || (e_type e =? "carrier_dispatched"))
         (events d).

(** A saga that awaits its child awaits a child that has not ended: when
    the child ends, [run] goes on at once. *)
Definition well_suspended (p : order_pc) : bool :=
  match p with
  | Shipping _ _ (ShReturned _) | Shipping _ _ (ShRaised _) => false
  | _ => true
  end.

(** The saga is past the last cancellation check and has not returned
    cancelled: it awaits its child, has completed or has failed. *)
Definition shipping_started (p : order_pc) : bool :=
  match p with
  | Shipping _ _ _ | Returned (RCompleted _ _ _) | Raised _ => true
  | _ => false
  end.

(** The saga has not started its child and has not completed. *)
Definition before_shipping (p : order_pc) : bool :=
  match p with
  | Shipping _ _ _ | Returned (RCompleted _ _ _) => false
  | _ => true
  end.

(** The type of the event an invocation records, and the order it records
    it for. *)
Definition operation_type (o : db_operation) : string :=
  match o with
  | NoOperation => ""
  | Received _ _ => "order_received"
  | Validated _ _ => "order_validated"
  | Charged _ _ _ => "payment_charged"
  | Prepared _ _ => "package_prepared"
  | Dispatched _ _ => "carrier_dispatched"
  end.

Definition operation_order (o : db_operation) : option string :=
  match o with
  | NoOperation => None
  | Received order_id _ => Some order_id
  | Validated order _ | Charged order _ _ | Prepared order _ | Dispatched order _ =>
    od_order_id order
  end.

(** The error the child raises when one of its steps fails with [cause], as
    the parent sees it. *)
Definition shipping_error (cause : exn) : exn :=
  ChildWorkflowError (ExnFrom "RuntimeError" ("Shipping failed: " ++ str cause) cause).

(** Every stored payment is charged. *)
Definition all_charged (d : DB) : Prop :=
  Forall (fun p => p_status p = "charged") (payments d).

(** Not a step given up by the executor. *)
Definition not_given_up (ev : event) : bool :=
  match ev with
  | GiveUp _ => false
  | _ => true
  end.

(** The names under which a cancelled run can report the step it stopped
    after. *)
Definition cancellation_steps : list string :=
  ["order_received"; "order_validated"; "manual_review"; "payment_charged"].

(** The result of a child workflow whose two steps succeeded. *)
Definition shipped : ShippingResult :=
  {| sr_status := "shipped"; sr_package_status := "Package ready";
     sr_dispatch_status := "Dispatched" |}.

(** A run of the child on its own in which both steps eventually pass:
    attempts cut short by the fault hook, then the passing attempt, for
    each step. *)
Definition shipping_attempts (faults1 faults2 : list event) : list event :=
  faults1 ++ Attempt Passes :: faults2 ++ [Attempt Passes].

(** The states this code writes to an order row. *)
Definition order_states : list string := ["received"; "validated"; "paid"].

(** Every order row is in one of them. *)
Definition known_states (d : DB) : Prop :=
  Forall (fun o => In (o_state o) order_states) (orders d).

(* ================================================================= *)
(** * Properties *)

Unset Implicit Arguments.

(** ** Small facts about the executor and the machine *)

(** Under the policy of the source every failed attempt is followed by
    another one. *)
Lemma retries_always : forall n e, retries retry_policy n e = true.
Proof. intros n e. reflexivity. Qed.

Lemma exec_app : forall evs1 evs2 s, exec s (evs1 ++ evs2) = exec (exec s evs1) evs2.
Proof. intros evs1 evs2 s. unfold exec. apply fold_left_app. Qed.

Lemma exec_cons : forall ev evs s, exec s (ev :: evs) = exec (step s ev) evs.
Proof. reflexivity. Qed.

Lemma step_closed : forall s ev, closed (pc s) = true -> step s ev = s.
Proof. intros s ev H. unfold step. rewrite H. reflexivity. Qed.

Lemma exec_closed : forall evs s, closed (pc s) = true -> exec s evs = s.
Proof.
  induction evs as [|ev evs IH]; intros s H; [reflexivity|].
  rewrite exec_cons, step_closed by assumption. now apply IH.
Qed.

Lemma step_signal : forall s sg,
  closed (pc s) = false ->
  step s (Signal sg) = suspend (pc s) (handle_signal sg (wf s)) (db s) (attempt s).
Proof. intros s sg H. unfold step. rewrite H. reflexivity. Qed.

Lemma reachable_init : forall db0 o p, reachable db0 o p (saga_init db0).
Proof. intros. exists []. split; [constructor | reflexivity]. Qed.

Lemma reachable_step : forall db0 o p s ev,
  reachable db0 o p s -> starts o p ev -> reachable db0 o p (step s ev).
Proof.
  intros db0 o p s ev (evs & Hs & ->) Hev. exists (evs ++ [ev]). split.
  - apply Forall_app. split; [assumption | now constructor].
  - now rewrite exec_app.
Qed.

(** Invariants of reachable states are proved by induction on the events. *)
Lemma reachable_ind_step : forall db0 o p (P : Saga -> Prop),
  P (saga_init db0) ->
  (forall s ev, P s -> starts o p ev -> P (step s ev)) ->
  forall s, reachable db0 o p s -> P s.
Proof.
  intros db0 o p P H0 Hstep s (evs & Hs & ->).
  induction evs as [|ev evs IH] using rev_ind; [exact H0|].
  apply Forall_app in Hs. destruct Hs as [Hs Hev].
  rewrite exec_app. simpl. apply Hstep; [now apply IH | now inversion Hev].
Qed.

(* ----------------------------------------------------------------- *)
(** ** The address-update signal (C10) *)

(** C10. For every saga state the address-update signal changes two fields
    of the queried snapshot: the shipping address becomes the signalled one
    and the phase becomes "address_updated", whatever it was; the order id,
    the cancellation flag and the order data are unchanged.  This is so at
    every suspension point of a running saga, whichever step it had
    reached. *)
Theorem update_address_overwrites_phase :
  forall (w : OrderWorkflow) (address : Dict) (s : Saga),
    get_status (update_address address w) =
      {| st_order_id := st_order_id (get_status w);
         st_current_step := "address_updated";
         st_is_cancelled := st_is_cancelled (get_status w);
         st_shipping_address := address;
         st_order_data := st_order_data (get_status w) |}
    /\ step s (Signal (UpdateAddress address)) =
         (if closed (pc s) then s
          else {| pc := pc s; wf := update_address address (wf s);
                  db := db s; attempt := attempt s |}).
Proof.
  intros w address s. split; [reflexivity|].
  unfold step. destruct (closed (pc s)); reflexivity.
Qed.

(* ----------------------------------------------------------------- *)
(** ** Failure of the shipping saga (C5) *)

Lemma execute_activity_rejected : forall (A : Type) (act : draw -> DB -> result A * DB)
    n ev d e d' n',
  execute_activity act n ev d = (Rejected e, d', n') -> ev = GiveUp e /\ d' = d.
Proof.
  intros A act n ev d e d' n' H. unfold execute_activity in H.
  destruct ev as [o p|sg|dr|e0|]; try discriminate.
  - destruct (act dr d) as [[a|e1] d1]; [discriminate|].
    rewrite retries_always in H. discriminate.
  - now inversion H.
Qed.



(* ----------------------------------------------------------------- *)
(** ** The phase reported by the query (C8, C7) *)

Ltac phase_cases :=
  repeat match goal with
         | H : context [String.eqb (_current_step ?w) ?c] |- _ =>
           destruct (String.eqb (_current_step w) c)
         | |- context [String.eqb (_current_step ?w) ?c] =>
           destruct (String.eqb (_current_step w) c)
         end;
  simpl in *; try reflexivity; try discriminate.

Ltac fields :=
  cbn [pc wf db attempt _current_step _is_cancelled set_current_step set_order_data
       cancel_order update_address handle_signal run_failed run_returns suspend
       enter_run closed] in *.

Lemma phase_ok_step : forall s ev, phase_ok s = true -> phase_ok (step s ev) = true.
Proof.
  intros [p w d n] ev H. unfold step. fields.
  destruct (closed p) eqn:Hc; [exact H|].
  destruct ev as [o q|sg|dr|e|].
  2:{ unfold phase_ok in *. destruct sg; destruct p; try discriminate Hc; reflexivity. }
  all: unfold advance; fields.
  all: destruct p as [| | | | |pr child cpc|r|e']; try discriminate Hc; try exact H.
  all: try (unfold shipping_step; destruct cpc).
  all: try match goal with
       | |- context [execute_activity ?act ?k ?ev ?d] =>
         destruct (execute_activity act k ev d) as [[[?|?|] ?] ?]
       end.
  all: unfold after_receive, after_validate, after_review, after_charge, after_shipping,
         shipping_failed; fields.
  all: repeat match goal with
       | |- context [if ?b then _ else _] => destruct b eqn:?; fields
       end.
  all: unfold phase_ok, signalled in *; fields; try reflexivity.
  all: try exact H.
  all: destruct (_is_cancelled w); try discriminate; phase_cases.
Qed.

Lemma phase_ok_reachable : forall db0 o p s, reachable db0 o p s -> phase_ok s = true.
Proof.
  intros db0 o p. apply reachable_ind_step; [reflexivity|].
  intros s ev H _. now apply phase_ok_step.
Qed.

Lemma phase_ok_in_code_phases : forall s,
  phase_ok s = true -> In (_current_step (wf s)) code_phases.
Proof.
  intros s. unfold phase_ok, signalled.
  generalize (_current_step (wf s)) as p. intros p.
  assert (Hin : forall c, In c code_phases -> (p =? c) = true -> In p code_phases).
  { intros c Hc Hp. apply String.eqb_eq in Hp. now subst. }
  intros H.
  destruct (p =? "initialized") eqn:E1; [apply (Hin _ (or_introl eq_refl) E1)|].
  destruct (p =? "receiving_order") eqn:E2; [eapply Hin; [|exact E2]; simpl; tauto|].
  destruct (p =? "validating_order") eqn:E3; [eapply Hin; [|exact E3]; simpl; tauto|].
  destruct (p =? "manual_review") eqn:E4; [eapply Hin; [|exact E4]; simpl; tauto|].
  destruct (p =? "charging_payment") eqn:E5; [eapply Hin; [|exact E5]; simpl; tauto|].
  destruct (p =? "starting_shipping") eqn:E6; [eapply Hin; [|exact E6]; simpl; tauto|].
  destruct (p =? "completed") eqn:E7; [eapply Hin; [|exact E7]; simpl; tauto|].
  destruct (p =? "cancelled") eqn:E8; [eapply Hin; [|exact E8]; simpl; tauto|].
  destruct (p =? "failed") eqn:E9; [eapply Hin; [|exact E9]; simpl; tauto|].
  destruct (p =? "address_updated") eqn:E10; [eapply Hin; [|exact E10]; simpl; tauto|].
  exfalso. destruct (pc s) as [| | | | |? ? ?|[?|? ? ?]|?]; simpl in H;
    rewrite ?andb_false_r in H; simpl in H; discriminate.
Qed.

(** The claim C8 as it stands fails twice.  A running saga that has handled
    an address update shows the phase "address_updated", which is not in the
    listed set; and a saga that ends cancelled can show that same phase
    instead of "cancelled". *)
Lemma phase_outside_spec_set :
  (reachable empty_db "order-1" "payment-1"
     (exec (saga_init empty_db)
           [Start "order-1" "payment-1"; Signal (UpdateAddress new_address)])
   /\ st_current_step (get_status (wf
        (exec (saga_init empty_db)
              [Start "order-1" "payment-1"; Signal (UpdateAddress new_address)])))
      = "address_updated"
   /\ ~ In "address_updated" spec_phases)
  /\ (pc (exec (saga_init empty_db)
               [Start "order-1" "payment-1"; Signal CancelOrder;
                Signal (UpdateAddress new_address); Attempt Passes])
      = Returned (RCancelled "order_received")
      /\ st_current_step (get_status (wf
           (exec (saga_init empty_db)
                 [Start "order-1" "payment-1"; Signal CancelOrder;
                  Signal (UpdateAddress new_address); Attempt Passes])))
         = "address_updated").
Proof.
  split; [split; [|split]|split]; try reflexivity.
  - eexists. split; [|reflexivity]. repeat constructor.
  - simpl. intros H. repeat (destruct H as [H|H]; [discriminate H|]). exact H.
Qed.

(** C8, amended. In every reachable state the phase shown by the query is
    one of the nine listed phases or "address_updated".  Once the saga has
    ended, no event changes what the query shows; after a completion the
    phase is "completed", after a failure it is "failed", and after a
    cancellation the snapshot has its cancellation flag set, with the phase
    "cancelled" unless an address update ("address_updated") or the entry of
    [run] ("receiving_order") has overwritten it. *)
Theorem phase_of_reachable_state :
  forall db0 o p s (evs : list event),
    reachable db0 o p s ->
    In (st_current_step (get_status (wf s))) code_phases
    /\ (match pc s with
        | Returned (RCompleted _ _ _) =>
          st_current_step (get_status (wf s)) = "completed"
          /\ get_status (wf (exec s evs)) = get_status (wf s)
        | Returned (RCancelled _) =>
          st_is_cancelled (get_status (wf s)) = true
          /\ In (st_current_step (get_status (wf s)))
                ["cancelled"; "address_updated"; "receiving_order"]
          /\ get_status (wf (exec s evs)) = get_status (wf s)
        | Raised _ =>
          st_current_step (get_status (wf s)) = "failed"
          /\ get_status (wf (exec s evs)) = get_status (wf s)
        | _ => True
        end).
Proof.
  intros db0 o p s evs Hr. pose proof (phase_ok_reachable _ _ _ _ Hr) as H.
  split; [now apply phase_ok_in_code_phases|].
  unfold phase_ok in H.
  assert (Hend : closed (pc s) = true -> get_status (wf (exec s evs)) = get_status (wf s)).
  { intros Hc. now rewrite exec_closed. }
  destruct (pc s) as [| | | | |? ? ?|[?|? ? ?]|?] eqn:Hpc; try exact I;
    apply andb_prop in H; destruct H as [_ H]; simpl.
  - apply andb_prop in H. destruct H as [Hc Hp]. split; [exact Hc|].
    split; [|now apply Hend]. unfold signalled in Hp.
    apply orb_prop in Hp. destruct Hp as [Hp|Hp];
      [apply orb_prop in Hp; destruct Hp as [Hp|Hp]|];
      apply String.eqb_eq in Hp; rewrite Hp; simpl; tauto.
  - split; [now apply String.eqb_eq | now apply Hend].
  - split; [now apply String.eqb_eq | now apply Hend].
Qed.

Lemma phase_of_reachable_state_witness :
  In (st_current_step (get_status (wf (exec (saga_init empty_db) happy_path)))) code_phases
  /\ st_current_step (get_status (wf (exec (saga_init empty_db) happy_path))) = "completed".
Proof.
  assert (Hr : reachable empty_db "order-1" "payment-1" (exec (saga_init empty_db) happy_path)).
  { eexists. split; [|reflexivity]. repeat constructor. }
  pose proof (@phase_of_reachable_state empty_db "order-1" "payment-1" _
                [Signal CancelOrder] Hr) as [H1 H2].
  split; [exact H1 | exact (proj1 H2)].
Defined.




(* ----------------------------------------------------------------- *)
(** ** The charge operation is idempotent (C1) *)

Section Tables.
Variables (A : Type) (f : A -> bool).


Lemma find_some_filter : forall l x, find f l = Some x -> filter f l <> [].
Proof.
  induction l as [|y l IH]; simpl; intros x H; [discriminate|].
  destruct (f y); [discriminate | now apply IH with x].
Qed.

Lemma find_none_existsb : forall l, find f l = None -> existsb f l = false.
Proof.
  induction l as [|x l IH]; simpl; [reflexivity|].
  destruct (f x); [discriminate | exact IH].
Qed.

Lemma find_app_last : forall l x,
  find f l = None -> find f (l ++ [x]) = if f x then Some x else None.
Proof.
  induction l as [|y l IH]; simpl; intros x H; [reflexivity|].
  destruct (f y); [discriminate | now apply IH].
Qed.

Lemma existsb_find_some : forall l, existsb f l = true -> exists x, find f l = Some x.
Proof.
  induction l as [|y l IH]; simpl; intros H; [discriminate|].
  destruct (f y); [now exists y | now apply IH].
Qed.

End Tables.


Lemma add_event_ok : forall oid ty payload x y,
  add_event oid ty payload x = Ok y ->
  exists k, oid = Some k
    /\ existsb (fun o => o_id o =? k) (orders x) = true
    /\ y = {| orders := orders x; payments := payments x;
              events := events x ++ [ {| e_id := next_event_id x; e_order_id := k;
                                         e_type := ty; e_payload_json := payload;
                                         e_ts := clock x |} ];
              next_event_id := S (next_event_id x); clock := clock x |}.
Proof.
  intros oid ty payload x y H. unfold add_event in H.
  destruct oid as [k|]; [|discriminate H]. exists k.
  destruct (existsb (fun o => o_id o =? k) (orders x)); [|discriminate H].
  inversion H. repeat split.
Qed.

(** What one invocation does to the payments table: nothing, or it appends
    the row of a payment that was absent and reports it as charged. *)
Lemma payment_charged_effect : forall order pid d db0 r db1,
  payment_charged order pid d db0 = (r, db1) ->
  db1 = db0 \/
  (session_get_payment db0 pid = None
   /\ exists row,
       p_payment_id row = pid /\ p_status row = "charged"
       /\ p_amount row = order_amount order
       /\ payments db1 = payments db0 ++ [row]
       /\ r = Ok {| pr_status := "charged"; pr_amount := PyInt (order_amount order) |}).
Proof.
  intros order pid d db0 r db1 H. unfold payment_charged in H.
  destruct (flaky_call d); [inversion H; now left|].
  destruct (session_get_payment db0 pid) eqn:Eg; [inversion H; now left|].
  unfold insert_payment_on_conflict_do_nothing in H.
  rewrite (find_none_existsb _ _ _ Eg) in H.
  destruct (od_order_id order) as [k|]; [|inversion H; now left].
  destruct (existsb (fun o => o_id o =? k) (orders db0)) eqn:Ek; [|inversion H; now left].
  destruct (negb (scalar_truthy (Some pid))).
  - match type of H with
    | context [match ?t with _ => _ end] => destruct t
    end; inversion H; now left.
  - match type of H with
    | context [add_event ?a ?b ?c ?x] => destruct (add_event a b c x) as [db3|e] eqn:Ea
    end; [|inversion H; now left].
    right. split; [reflexivity|].
    exists {| p_payment_id := pid; p_order_id := k; p_status := "charged";
              p_amount := order_amount order; p_created_at := clock db0 |}.
    apply add_event_ok in Ea. destruct Ea as (k' & _ & _ & ->).
    inversion H; subst. repeat split.
    simpl. destruct (find (fun o => o_id o =? k) (orders db0)); reflexivity.
Qed.




(* ----------------------------------------------------------------- *)
(** ** Cancellation is observed after the step (C2) *)

(** C2. When the cancellation flag is set at the check that follows a step,
    the saga returns "cancelled" with the name of that step, keeps the
    database as the step left it, and takes no further step whatever happens
    next.  The signal itself aborts nothing: delivering it to a saga changes
    neither the database nor whether and how the awaited step completes; it
    only sets the flag of a running saga. *)
Theorem cancellation_checkpoint :
  forall (s s0 : Saga) (ev : event) (name : string) (d' : DB) (evs : list event),
    _is_cancelled (wf s) = true ->
    checkpoint_after s ev = Some (name, d') ->
    (pc (step s ev) = Returned (RCancelled name)
     /\ db (step s ev) = d'
     /\ exec (step s ev) evs = step s ev)
    /\ (checkpoint_after (step s0 (Signal CancelOrder)) ev = checkpoint_after s0 ev
        /\ db (step s0 (Signal CancelOrder)) = db s0
        /\ pc (step s0 (Signal CancelOrder)) = pc s0
        /\ _is_cancelled (wf (step s0 (Signal CancelOrder)))
           = (negb (closed (pc s0)) || _is_cancelled (wf s0))).
Proof.
  intros s s0 ev name d' evs Hc H. split.
  - assert (Hs : step s ev = run_returns (RCancelled name) (wf (step s ev)) d').
    { destruct s as [p w d n]. unfold checkpoint_after in H. fields.
      destruct ev as [o q|sg|dr|e|]; destruct p; try discriminate H;
        unfold step, advance, execute_activity; fields.
      - destruct (receive_order_activity (_order_id w) dr d) as [[a|e1] d1];
          [|discriminate H]. inversion H; subst.
        unfold after_receive. fields. now rewrite Hc.
      - destruct (validate_order_activity (_order_data w) dr d) as [[[|]|e1] d1];
          try discriminate H. inversion H; subst.
        unfold after_validate. fields. now rewrite Hc.
      - destruct (charge_payment_activity (_order_data w) (_payment_id w) dr d)
          as [[a|e1] d1]; [|discriminate H].
        destruct (pr_status a =? "charged") eqn:Ea; [|discriminate H].
        inversion H; subst. unfold after_charge. rewrite Ea. fields. now rewrite Hc.
      - inversion H; subst. unfold after_review. now rewrite Hc. }
    rewrite Hs. repeat split. apply exec_closed. reflexivity.
  - unfold step. destruct (closed (pc s0)) eqn:Hcl; repeat split.
Qed.

(** Conversely, a running saga returns "cancelled" only at one of these
    checks, with the flag set; the check that follows "starting_shipping"
    in the source is never the one that fires. *)
Lemma cancelled_only_at_checkpoint : forall s ev name,
  closed (pc s) = false ->
  pc (step s ev) = Returned (RCancelled name) ->
  _is_cancelled (wf s) = true
  /\ checkpoint_after s ev = Some (name, db (step s ev)).
Proof.
  intros [p w d n] ev name Hc. unfold checkpoint_after, step. fields. rewrite Hc.
  destruct p as [| | | | |pr child cpc|r|e']; try discriminate Hc.
  all: destruct ev as [o q|sg|dr|e|]; try (intros H; discriminate H).
  all: unfold advance, shipping_step, execute_activity; fields;
    try (intros H; discriminate H).
  all: try (destruct cpc);
    repeat match goal with
           | |- context [match ?act ?dr ?d with _ => _ end] =>
             destruct (act dr d) as [[?|?] ?]
           end;
    try rewrite retries_always; fields; try (intros H; discriminate H).
  all: unfold after_receive, after_validate, after_review, after_charge, after_shipping,
         shipping_failed; fields.
  all: repeat match goal with
       | |- context [negb ?b] => destruct b eqn:?; cbn [negb]
       | |- context [if ?b then _ else _] => destruct b eqn:?; fields
       end; try (intros H; discriminate H).
  all: intros H; inversion H; subst; split; reflexivity.
Qed.

Lemma cancellation_checkpoint_witness :
  pc (step cancelled_while_charging (Attempt Passes)) = Returned (RCancelled "payment_charged")
  /\ payment_rows "payment-1" (db (step cancelled_while_charging (Attempt Passes))) = 1
  /\ exec (step cancelled_while_charging (Attempt Passes)) [Attempt Passes; Attempt Passes]
     = step cancelled_while_charging (Attempt Passes).
Proof.
  assert (Hc : _is_cancelled (wf cancelled_while_charging) = true)
    by (vm_compute; reflexivity).
  assert (Hk : checkpoint_after cancelled_while_charging (Attempt Passes)
               = Some ("payment_charged",
                       db (step cancelled_while_charging (Attempt Passes))))
    by (vm_compute; reflexivity).
  destruct (cancellation_checkpoint cancelled_while_charging cancelled_while_charging
              (Attempt Passes) "payment_charged" _
              [Attempt Passes; Attempt Passes] Hc Hk) as [(Hp & _ & He) _].
  split; [exact Hp | split; [vm_compute; reflexivity | exact He]].
Defined.

(* ----------------------------------------------------------------- *)
(** ** An order without items at the validate step (C3) *)

(** The order data the receive step hands over always has one item, so the
    saga itself never validates an empty order. *)
Lemma order_received_has_items : forall order_id d db0 order db1,
  order_received order_id d db0 = (Ok order, db1) -> order = received_order order_id.
Proof.
  intros order_id d db0 order db1 H. unfold order_received in H.
  destruct (flaky_call d); [discriminate H|].
  destruct (session_get_order db0 (Some order_id)); [now inversion H|].
  match type of H with
  | context [add_event ?a ?b ?c ?x] => destruct (add_event a b c x)
  end; [now inversion H | discriminate H].
Qed.






(* ----------------------------------------------------------------- *)
(** ** The event log of one saga (C4, C9) *)

Lemma strictly_increasing_snoc : forall l t,
  strictly_increasing l -> Forall (fun x => x < t) l -> strictly_increasing (l ++ [t]).
Proof.
  induction l as [|x l IH]; intros t Hs Hb; simpl; [tauto|].
  destruct Hs as [Hx Hs]. inversion Hb as [|? ? Hxt Hb']; subst. split.
  - destruct l as [|y l]; simpl; [exact Hxt | exact Hx].
  - now apply IH.
Qed.

Lemma firstn_succ_steps : forall n,
  n < 5 -> firstn (S n) saga_steps = firstn n saga_steps ++ [nth n saga_steps ""].
Proof.
  intros n H. do 5 (destruct n as [|n]; [reflexivity|]). lia.
Qed.

Lemma filter_length_0_find : forall (A : Type) (f : A -> bool) l,
  length (filter f l) = 0 -> find f l = None.
Proof.
  induction l as [|x l IH]; simpl; [reflexivity|].
  destruct (f x); simpl; [discriminate | exact IH].
Qed.

Lemma existsb_false_find : forall (A : Type) (f : A -> bool) l,
  existsb f l = false -> find f l = None.
Proof.
  induction l as [|x l IH]; simpl; [reflexivity|].
  destruct (f x); simpl; [discriminate | exact IH].
Qed.

Lemma order_exists_set_state : forall oid k st d,
  order_exists oid (set_order_state k st d) = order_exists oid d.
Proof.
  intros oid k st d. unfold order_exists, set_order_state. simpl.
  induction (orders d) as [|o l IH]; simpl; [reflexivity|].
  rewrite IH. destruct (o_id o =? k); reflexivity.
Qed.

Lemma select_event_types : forall oid ty d,
  select_event (Some oid) ty d = existsb (fun t => t =? ty) (event_types oid d).
Proof.
  intros oid ty d. unfold select_event, event_types, events_of.
  induction (events d) as [|e l IH]; simpl; [reflexivity|].
  rewrite IH. destruct (e_order_id e =? oid); reflexivity.
Qed.

Section OneSaga.
Variables (oid pid : string).
Hypothesis pid_not_empty : pid <> "".

Lemma fresh_progress : forall d, fresh oid pid d -> progress oid pid 0 d.
Proof.
  intros d (Ho & He & Hp). unfold progress, log, event_types.
  rewrite He, Ho, Hp. simpl. repeat split; auto. lia. discriminate.
Qed.

(** Recording the event of step [n] in one more transaction. *)
Lemma log_extend : forall n d d1 ty payload,
  log oid n d -> n < 5 ->
  events d1 = events d -> clock d <= clock d1 -> order_exists oid d1 = true ->
  ty = nth n saga_steps "" ->
  exists d2,
    add_event (Some oid) ty payload d1 = Ok d2
    /\ log oid (S n) (commit d2)
    /\ orders (commit d2) = orders d1
    /\ payments (commit d2) = payments d1.
Proof.
  intros n d d1 ty payload (Ht & Hs & Hb) Hn He Hc Ho Hty.
  unfold add_event. unfold order_exists in Ho. rewrite Ho.
  eexists. split; [reflexivity|]. split; [|split; reflexivity].
  unfold log, event_types, events_of in *.
  cbn [events commit clock]. rewrite He, filter_app.
  cbn [filter e_order_id]. rewrite String.eqb_refl, !map_app.
  cbn [map e_type e_ts]. split; [|split].
  - rewrite Ht, firstn_succ_steps by exact Hn. now subst ty.
  - apply strictly_increasing_snoc; [exact Hs|].
    rewrite Forall_map. eapply Forall_impl; [|exact Hb]. simpl. intros; lia.
  - apply Forall_app. split.
    + eapply Forall_impl; [|exact Hb]. simpl. intros; lia.
    + constructor; [simpl; lia | constructor].
Qed.

Lemma received_progress : forall d,
  progress oid pid 0 d ->
  exists d', order_received oid Passes d = (Ok (received_order oid), d')
             /\ progress oid pid 1 d'.
Proof.
  intros d (Hl & _ & Ho & _ & Hp).
  change (0 <? 0)%nat with false in Ho.
  unfold order_received. simpl flaky_call. cbv iota.
  unfold session_get_order. unfold order_exists in Ho.
  rewrite (existsb_false_find _ _ _ Ho).
  destruct (log_extend 0 d (commit (add_order oid "received" default_address d))
              "order_received" [("order_id", JStr oid)] Hl) as (d2 & Ha & Hl2 & Ho2 & Hp2);
    try reflexivity; try (simpl; lia).
  { unfold order_exists. simpl. rewrite existsb_app. simpl.
    rewrite String.eqb_refl. now rewrite orb_true_r. }
  rewrite Ha. eexists. split; [reflexivity|].
  split; [exact Hl2|]. split; [lia|]. split; [|split].
  - unfold order_exists. rewrite Ho2. simpl. rewrite existsb_app. simpl.
    rewrite String.eqb_refl. now rewrite orb_true_r.
  - intros _ o. unfold session_get_order. rewrite Ho2. simpl.
    rewrite (find_app_last _ _ _ _ (existsb_false_find _ _ _ Ho)). simpl.
    rewrite String.eqb_refl. intros H; inversion H. reflexivity.
  - unfold payment_rows in *. rewrite Hp2. simpl. exact Hp.
Qed.

Lemma validated_progress : forall d,
  progress oid pid 1 d ->
  exists d', order_validated (received_order oid) Passes d = (Ok true, d')
             /\ progress oid pid 2 d'.
Proof.
  intros d (Hl & _ & Ho & Hst & Hp).
  change (0 <? 1)%nat with true in Ho.
  unfold order_validated. simpl flaky_call. cbv iota. simpl od_items. cbv iota.
  simpl od_order_id.
  destruct (existsb_find_some _ _ _ Ho) as (o & Hfind).
  unfold session_get_order in *. rewrite Hfind.
  rewrite (Hst eq_refl o Hfind). simpl String.eqb. cbv iota.
  assert (Hid : o_id o = oid).
  { apply find_some in Hfind. now apply String.eqb_eq. }
  rewrite Hid.
  destruct (log_extend 1 d (set_order_state oid "validated" d)
              "order_validated" [("order_id", JStr oid); ("status", JStr "validated")] Hl)
    as (d2 & Ha & Hl2 & Ho2 & Hp2); try reflexivity; try (simpl; lia).
  { now rewrite order_exists_set_state. }
  simpl json_of_id. rewrite Ha. eexists. split; [reflexivity|].
  split; [exact Hl2|]. split; [lia|]. split; [|split].
  - change (order_exists oid (commit d2) = true). unfold order_exists. rewrite Ho2.
    change (order_exists oid (set_order_state oid "validated" d) = true).
    now rewrite order_exists_set_state.
  - discriminate.
  - unfold payment_rows in *. rewrite Hp2. simpl. exact Hp.
Qed.

Lemma charged_progress : forall d,
  progress oid pid 2 d ->
  exists d', payment_charged (received_order oid) pid Passes d
             = (Ok {| pr_status := "charged"; pr_amount := PyInt 1 |}, d')
             /\ progress oid pid 3 d'.
Proof.
  intros d (Hl & _ & Ho & _ & Hp).
  change (0 <? 2)%nat with true in Ho.
  change (if (2 <? 3)%nat then 0 else 1) with 0 in Hp.
  unfold payment_charged. simpl flaky_call. cbv iota. simpl od_order_id.
  change (order_amount (received_order oid)) with 1%Z.
  pose proof (filter_length_0_find _ _ _ Hp) as Hfind.
  unfold session_get_payment. rewrite Hfind.
  unfold insert_payment_on_conflict_do_nothing.
  rewrite (find_none_existsb _ _ _ Hfind).
  unfold order_exists in Ho. rewrite Ho.
  assert (Hs : scalar_truthy (Some pid) = true).
  { simpl. apply negb_true_iff. now apply String.eqb_neq. }
  cbv beta iota. rewrite Hs. simpl negb. cbv iota.
  match goal with
  | |- context [add_event _ _ _ ?x] => set (d1 := x)
  end.
  assert (H1 : events d1 = events d /\ clock d <= clock d1 /\ order_exists oid d1 = true
               /\ payments d1 = payments d ++
                    [ {| p_payment_id := pid; p_order_id := oid; p_status := "charged";
                         p_amount := 1%Z; p_created_at := clock d |} ]).
  { subst d1. destruct (session_get_order _ (Some oid)) as [o|].
    - repeat split; [simpl; lia|]. rewrite order_exists_set_state. exact Ho.
    - repeat split; [simpl; lia | exact Ho]. }
  destruct H1 as (He1 & Hc1 & Ho1 & Hp1).
  destruct (log_extend 2 d d1 "payment_charged"
              [("payment_id", JStr pid); ("amount", JNum (PyInt 1))] Hl)
    as (d2 & Ha & Hl2 & Ho2 & Hp2); try reflexivity; try assumption; try lia.
  rewrite Ha. eexists. split; [reflexivity|].
  split; [exact Hl2|]. split; [lia|]. split; [|split].
  - change (order_exists oid (commit d2) = true). unfold order_exists.
    rewrite Ho2. exact Ho1.
  - discriminate.
  - unfold payment_rows in *. rewrite Hp2, Hp1, filter_app, length_app, Hp. simpl.
    now rewrite String.eqb_refl.
Qed.

(** The two shipping operations have the same shape. *)
Lemma shipping_event_progress : forall n ty status (answer : string) d,
  (n = 3 \/ n = 4) -> ty = nth n saga_steps "" ->
  progress oid pid n d ->
  let operation :=
      if select_event (Some oid) ty d then (Ok answer, d)
      else match add_event (Some oid) ty
                   [("order_id", JStr oid); ("status", JStr status)] d with
           | Raise e => (Raise e, d)
           | Ok d1 => (Ok answer, commit d1)
           end in
  exists d', operation = (Ok answer, d') /\ progress oid pid (S n) d'.
Proof.
  intros n ty status answer d Hn Hty (Hl & _ & Ho & _ & Hp) operation.
  subst operation.
  assert (Hsel : select_event (Some oid) ty d = false).
  { rewrite select_event_types. destruct Hl as (-> & _).
    destruct Hn; subst; reflexivity. }
  rewrite Hsel.
  assert (Ho' : order_exists oid d = true) by (rewrite Ho; destruct Hn; subst; reflexivity).
  destruct (log_extend n d d ty [("order_id", JStr oid); ("status", JStr status)] Hl)
    as (d2 & Ha & Hl2 & Ho2 & Hp2); try reflexivity; try assumption; try lia.
  rewrite Ha. eexists. split; [reflexivity|].
  split; [exact Hl2|]. split; [lia|]. split; [|split].
  - change (order_exists oid (commit d2) = (0 <? S n)%nat). unfold order_exists.
    rewrite Ho2. exact Ho'.
  - intros E. lia.
  - unfold payment_rows in *. rewrite Hp2, Hp. destruct Hn; subst; reflexivity.
Qed.

Lemma prepared_progress : forall d,
  progress oid pid 3 d ->
  exists d', package_prepared (received_order oid) Passes d = (Ok "Package ready", d')
             /\ progress oid pid 4 d'.
Proof.
  intros d H.
  exact (shipping_event_progress 3 "package_prepared" "prepared" "Package ready" d
           (or_introl eq_refl) eq_refl H).
Qed.

Lemma dispatched_progress : forall d,
  progress oid pid 4 d ->
  exists d', carrier_dispatched (received_order oid) Passes d = (Ok "Dispatched", d')
             /\ progress oid pid 5 d'.
Proof.
  intros d H.
  exact (shipping_event_progress 4 "carrier_dispatched" "dispatched" "Dispatched" d
           (or_intror eq_refl) eq_refl H).
Qed.
(** *** The saga and its log *)

Lemma saga_inv_init : forall db0, fresh oid pid db0 -> saga_inv oid pid (saga_init db0).
Proof.
  intros db0 H. exists 0. split; [now apply fresh_progress | reflexivity].
Qed.

Ltac unfold_step :=
  unfold step, advance, shipping_step, execute_activity,
    receive_order_activity, validate_order_activity, charge_payment_activity,
    prepare_package_activity, dispatch_carrier_activity, handle_flaky_call;
  cbn [pc wf db attempt closed].

Ltac after_step :=
  unfold after_receive, after_validate, after_review, after_charge, after_shipping,
    ShippingWorkflow_start;
  cbn [pc wf db attempt _current_step _is_cancelled _order_id _payment_id _order_data
       set_current_step set_order_data cancel_order update_address handle_signal
       run_failed run_returns suspend enter_run closed stage sh_order_data
       negb].

Ltac conclude n Hp :=
  split;
  [ exists n; split; [exact Hp | unfold level; after_step; repeat split; auto]
  | let Hh := fresh "Hh" in
    let Hc := fresh "Hc" in
    intros Hh Hc;
    first [ discriminate Hh | discriminate Hc
          | after_step; after_step; split; [first [exact Hc | reflexivity | congruence]
                                           | reflexivity] ] ].

Lemma step_sound : forall s ev,
  saga_inv oid pid s -> starts oid pid ev ->
  saga_inv oid pid (step s ev)
  /\ (harmless ev = true -> _is_cancelled (wf s) = false ->
      _is_cancelled (wf (step s ev)) = false
      /\ stage (pc (step s ev))
         = stage (pc s) + (if resumes (stage (pc s)) ev then 1 else 0)).
Proof.
  intros [p w d k] ev (n & Hp & Hl) Hst. unfold level in Hl.
  cbn [pc wf db attempt] in *.
  destruct p as [| | | | |pr child cpc|[name|o0 pr sr]|e0].
  - (* NotStarted *)
    subst n.
    destruct ev as [o q|[|a]|[| |]|e|]; unfold_step; conclude 0 Hp.
    all: destruct Hst as [-> ->]; reflexivity.
  - (* ReceiveOrder *)
    destruct Hl as (-> & Hoid & Hpid).
    destruct ev as [o q|[|a]|[| |]|e|]; unfold_step; try (conclude 0 Hp; fail).
    rewrite Hoid. destruct (received_progress d Hp) as (d' & -> & Hp').
    after_step. destruct (_is_cancelled w) eqn:Hc0; conclude 1 Hp'.
  - (* ValidateOrder *)
    destruct Hl as (-> & Hoid & Hpid & Hdata).
    destruct ev as [o q|[|a]|[| |]|e|]; unfold_step; try (conclude 1 Hp; fail).
    rewrite Hdata. destruct (validated_progress d Hp) as (d' & -> & Hp').
    after_step. destruct (_is_cancelled w) eqn:Hc0; conclude 2 Hp'.
  - (* ManualReview *)
    destruct Hl as (-> & Hoid & Hpid & Hdata).
    destruct ev as [o q|[|a]|[| |]|e|]; unfold_step; try (conclude 2 Hp; fail).
    after_step. destruct (_is_cancelled w) eqn:Hc0; conclude 2 Hp.
  - (* ChargePayment *)
    destruct Hl as (-> & Hoid & Hpid & Hdata).
    destruct ev as [o q|[|a]|[| |]|e|]; unfold_step; try (conclude 2 Hp; fail).
    rewrite Hdata, Hpid. destruct (charged_progress d Hp) as (d' & -> & Hp').
    after_step. simpl String.eqb. after_step.
    destruct (_is_cancelled w) eqn:Hc0; conclude 3 Hp'.
  - (* Shipping *)
    destruct cpc as [|ps|r|e1]; try contradiction.
    + destruct Hl as (-> & Hoid & Hdata & Hpr).
      destruct ev as [o q|[|a]|[| |]|e|]; unfold_step; try (conclude 3 Hp; fail).
      rewrite Hdata. destruct (prepared_progress d Hp) as (d' & -> & Hp').
      conclude 4 Hp'.
    + destruct Hl as (-> & Hoid & Hdata & Hpr).
      destruct ev as [o q|[|a]|[| |]|e|]; unfold_step; try (conclude 4 Hp; fail).
      rewrite Hdata. destruct (dispatched_progress d Hp) as (d' & -> & Hp').
      conclude 5 Hp'.
  - (* Returned (RCancelled _) *)
    unfold step. cbn [pc closed]. split; [exists n; split; [exact Hp | exact Hl]|].
    intros _ Hc. split; [exact Hc|]. destruct ev as [o q|[|a]|[| |]|e|]; reflexivity.
  - unfold step. cbn [pc closed]. split; [exists n; split; [exact Hp | exact Hl]|].
    intros _ Hc. split; [exact Hc|]. destruct ev as [o q|[|a]|[| |]|e|]; reflexivity.
  - unfold step. cbn [pc closed]. split; [exists n; split; [exact Hp | exact Hl]|].
    intros _ Hc. split; [exact Hc|]. destruct ev as [o q|[|a]|[| |]|e|]; reflexivity.
Qed.

Lemma saga_inv_reachable : forall db0 s,
  fresh oid pid db0 -> reachable db0 oid pid s -> saga_inv oid pid s.
Proof.
  intros db0 s Hf. revert s. apply reachable_ind_step.
  - now apply saga_inv_init.
  - intros s ev H Hst. now apply step_sound.
Qed.

Lemma exec_sound : forall evs s,
  saga_inv oid pid s -> Forall (starts oid pid) evs ->
  forallb harmless evs = true -> _is_cancelled (wf s) = false ->
  saga_inv oid pid (exec s evs)
  /\ _is_cancelled (wf (exec s evs)) = false
  /\ stage (pc (exec s evs)) = run_stage (stage (pc s)) evs.
Proof.
  induction evs as [|ev evs IH]; intros s Hi Hst Hh Hc; [repeat split; assumption|].
  inversion Hst as [|? ? Hev Hst']; subst. simpl in Hh.
  apply andb_prop in Hh. destruct Hh as [Hh Hh'].
  destruct (step_sound s ev Hi Hev) as (Hi' & Hs). destruct (Hs Hh Hc) as (Hc' & Hk).
  rewrite exec_cons. unfold run_stage. simpl fold_left. rewrite <- Hk.
  now apply IH.
Qed.

End OneSaga.

(** The claim C4 as it stands fails in two ways.  The charge operation is
    keyed by the payment id alone: a saga for another order that is given a
    payment id already charged gets the stored result and records no
    payment_charged event of its own, so at its dispatch step the order has
    a package_prepared event without one.  And for the empty payment id the
    operation tests the truth of the returned key to learn whether its
    insert took place; the empty string is false, so it answers from the
    row it has just written and leaves without a commit, with the same
    outcome even on an empty database. *)
Lemma prepared_without_charge :
  (reachable db_after_first_run "order-2" "payment-1"
     (exec (saga_init db_after_first_run)
           [Start "order-2" "payment-1"; Attempt Passes; Attempt Passes; TimerFired;
            Attempt Passes; Attempt Passes])
   /\ has_event "order-2" "package_prepared"
        (db (exec (saga_init db_after_first_run)
                  [Start "order-2" "payment-1"; Attempt Passes; Attempt Passes; TimerFired;
                   Attempt Passes; Attempt Passes])) = true
   /\ has_event "order-2" "payment_charged"
        (db (exec (saga_init db_after_first_run)
                  [Start "order-2" "payment-1"; Attempt Passes; Attempt Passes; TimerFired;
                   Attempt Passes; Attempt Passes])) = false)
  /\ (reachable empty_db "order-1" ""
        (exec (saga_init empty_db)
              [Start "order-1" ""; Attempt Passes; Attempt Passes; TimerFired;
               Attempt Passes; Attempt Passes])
      /\ has_event "order-1" "package_prepared"
           (db (exec (saga_init empty_db)
                     [Start "order-1" ""; Attempt Passes; Attempt Passes; TimerFired;
                      Attempt Passes; Attempt Passes])) = true
      /\ has_event "order-1" "payment_charged"
           (db (exec (saga_init empty_db)
                     [Start "order-1" ""; Attempt Passes; Attempt Passes; TimerFired;
                      Attempt Passes; Attempt Passes])) = false).
Proof.
  repeat match goal with |- _ /\ _ => split end;
    try (vm_compute; reflexivity);
    (eexists; split; [|reflexivity]; repeat constructor).
Qed.

Lemma prefix_respects_order : forall n i j,
  i < j -> j < 5 ->
  In (nth j saga_steps "") (firstn n saga_steps) ->
  In (nth i saga_steps "") (firstn n saga_steps).
Proof.
  intros n i j Hij Hj.
  assert (Hn : n = 0 \/ n = 1 \/ n = 2 \/ n = 3 \/ n = 4 \/ 5 <= n) by lia.
  assert (Hjs : j = 1 \/ j = 2 \/ j = 3 \/ j = 4) by lia.
  destruct Hn as [-> | [-> | [-> | [-> | [-> | Hn]]]]].
  6:{ rewrite firstn_all2 by (simpl; lia). intros _. apply nth_In. simpl. lia. }
  all: destruct Hjs as [-> | [-> | [-> | ->]]]; simpl;
    intros H; repeat (destruct H as [H|H]; [discriminate H|]); try contradiction.
  all: assert (Hi : i = 0 \/ i = 1 \/ i = 2 \/ i = 3) by lia;
    destruct Hi as [-> | [-> | [-> | ->]]]; simpl; try lia; tauto.
Qed.

(** C4, amended. For a saga started with a non-empty payment id on a
    database that holds nothing yet for its order id and payment id, in
    every reachable state the events of the order are the events of a first
    part of the five steps, in the order of the steps and one each; so an
    event of a later step exists only if the events of all earlier steps
    exist.  Their timestamps increase strictly in that order, and when the
    run has completed all five are there. *)
Theorem step_order_respected :
  forall (db0 : DB) (oid pid : string) (s : Saga) (i j : nat),
    pid <> "" ->
    fresh oid pid db0 ->
    reachable db0 oid pid s ->
    (exists n, event_types oid (db s) = firstn n saga_steps)
    /\ (i < j -> j < 5 ->
        In (nth j saga_steps "") (event_types oid (db s)) ->
        In (nth i saga_steps "") (event_types oid (db s)))
    /\ strictly_increasing (map e_ts (events_of oid (db s)))
    /\ (match pc s with
        | Returned (RCompleted _ _ _) => event_types oid (db s) = saga_steps
        | _ => True
        end).
Proof.
  intros db0 oid pid s i j Hpid Hf Hr.
  destruct (saga_inv_reachable oid pid Hpid db0 s Hf Hr) as (n & Hp & Hl).
  destruct Hp as ((Ht & Hs & _) & _).
  split; [now exists n|]. split; [|split].
  - rewrite Ht. now apply prefix_respects_order.
  - exact Hs.
  - unfold level in Hl. destruct (pc s) as [| | | | |? ? ?|[?|? ? ?]|?]; try exact I.
    destruct Hl as (-> & _). exact Ht.
Qed.

Lemma step_order_respected_witness :
  event_types "order-1" (db (exec (saga_init empty_db) happy_path)) = saga_steps
  /\ strictly_increasing
       (map e_ts (events_of "order-1" (db (exec (saga_init empty_db) happy_path)))).
Proof.
  assert (Hpid : "payment-1" <> "") by discriminate.
  assert (Hf : fresh "order-1" "payment-1" empty_db) by (repeat split).
  assert (Hr : reachable empty_db "order-1" "payment-1" (exec (saga_init empty_db) happy_path)).
  { eexists. split; [|reflexivity]. repeat constructor. }
  destruct (step_order_respected empty_db "order-1" "payment-1" _ 0 1 Hpid Hf Hr)
    as (_ & _ & Hs & Hc).
  split; [exact Hc | exact Hs].
Defined.

(* ----------------------------------------------------------------- *)
(** ** The run from start to completion (C9) *)

Lemma quiet_harmless : forall l, forallb quiet l = true -> forallb harmless l = true.
Proof.
  induction l as [|ev l IH]; simpl; intros H; [reflexivity|].
  apply andb_prop in H. destruct H as [H1 H2]. rewrite (IH H2), andb_true_r.
  destruct ev as [o q|[|a]|[| |]|e|]; try discriminate H1; reflexivity.
Qed.

Lemma quiet_starts : forall oid pid l,
  forallb quiet l = true -> Forall (starts oid pid) l.
Proof.
  induction l as [|ev l IH]; simpl; intros H; [constructor|].
  apply andb_prop in H. destruct H as [H1 H2]. constructor; [|now apply IH].
  destruct ev as [o q|[|a]|[| |]|e|]; try discriminate H1; exact I.
Qed.

Lemma run_stage_quiet : forall l k, forallb quiet l = true -> run_stage k l = k.
Proof.
  induction l as [|ev l IH]; simpl; intros k H; [reflexivity|].
  apply andb_prop in H. destruct H as [H1 H2].
  unfold run_stage in *. simpl.
  destruct ev as [o q|[|a]|[| |]|e|]; try discriminate H1; simpl;
    rewrite Nat.add_0_r; now apply IH.
Qed.

Lemma run_stage_app : forall l1 l2 k,
  run_stage k (l1 ++ l2) = run_stage (run_stage k l1) l2.
Proof. intros. unfold run_stage. apply fold_left_app. Qed.

Lemma run_stage_cons : forall ev l k,
  run_stage k (ev :: l) = run_stage (k + (if resumes k ev then 1 else 0)) l.
Proof. reflexivity. Qed.

Lemma successful_run_stage : forall oid pid noise,
  (forall i, forallb quiet (noise i) = true) ->
  run_stage 0 (successful_run oid pid noise) = 7
  /\ forallb harmless (successful_run oid pid noise) = true
  /\ Forall (starts oid pid) (successful_run oid pid noise).
Proof.
  intros oid pid noise Hq. unfold successful_run. split; [|split].
  - repeat (rewrite run_stage_app, (run_stage_quiet _ _ (Hq _)), run_stage_cons;
            cbn [resumes Nat.eqb orb Nat.add]).
    apply run_stage_quiet, Hq.
  - repeat (rewrite forallb_app, (quiet_harmless _ (Hq _)); cbn [forallb harmless andb]).
    apply quiet_harmless, Hq.
  - repeat (apply Forall_app; split; [apply quiet_starts, Hq|];
            constructor; [simpl; auto|]).
    apply quiet_starts, Hq.
Qed.

(** The claim C9 as it stands fails on a database that already holds rows
    for the payment or the order, and for the empty payment id.  A run for
    "order-2" with the payment id already charged for "order-1" completes
    and ships, but the charge step answers from the stored row: the order
    gets no payment_charged event.  A second run for the same order and
    payment completes again and the order then has two order_validated
    events.  With the empty payment id the run completes, but no Payment
    row and no payment_charged event exist afterwards. *)
Lemma completed_without_exactly_one_each :
  (pc (exec (saga_init db_after_first_run)
            [Start "order-2" "payment-1"; Attempt Passes; Attempt Passes; TimerFired;
             Attempt Passes; Attempt Passes; Attempt Passes])
   = Returned (RCompleted "order-2" {| pr_status := "charged"; pr_amount := PyFloat 1 |}
                 {| sr_status := "shipped"; sr_package_status := "Package ready";
                    sr_dispatch_status := "Dispatched" |})
   /\ event_count "order-2" "payment_charged"
        (db (exec (saga_init db_after_first_run)
                  [Start "order-2" "payment-1"; Attempt Passes; Attempt Passes; TimerFired;
                   Attempt Passes; Attempt Passes; Attempt Passes])) = 0)
  /\ (pc (exec (saga_init db_after_first_run) happy_path)
      = Returned (RCompleted "order-1" {| pr_status := "charged"; pr_amount := PyFloat 1 |}
                    {| sr_status := "shipped"; sr_package_status := "Package ready";
                       sr_dispatch_status := "Dispatched" |})
      /\ event_count "order-1" "order_validated"
           (db (exec (saga_init db_after_first_run) happy_path)) = 2)
  /\ (pc (exec (saga_init empty_db)
               [Start "order-1" ""; Attempt Passes; Attempt Passes; TimerFired;
                Attempt Passes; Attempt Passes; Attempt Passes])
      = Returned (RCompleted "order-1" {| pr_status := "charged"; pr_amount := PyFloat 1 |}
                    {| sr_status := "shipped"; sr_package_status := "Package ready";
                       sr_dispatch_status := "Dispatched" |})
      /\ payment_rows ""
           (db (exec (saga_init empty_db)
                     [Start "order-1" ""; Attempt Passes; Attempt Passes; TimerFired;
                      Attempt Passes; Attempt Passes; Attempt Passes])) = 0
      /\ event_count "order-1" "payment_charged"
           (db (exec (saga_init empty_db)
                     [Start "order-1" ""; Attempt Passes; Attempt Passes; TimerFired;
                      Attempt Passes; Attempt Passes; Attempt Passes])) = 0).
Proof.
  repeat match goal with |- _ /\ _ => split end; vm_compute; reflexivity.
Qed.

(** C9, amended. For every uncancelled run in which every step eventually
    succeeds, started with a non-empty payment id on a database that holds
    nothing yet for the order id and the payment id: the saga returns the
    result "completed" with a shipping result "shipped" (and a payment
    result "charged"), the query shows the phase "completed", and the
    database holds exactly one event of each of the five step types for the
    order, in the order of the steps, and exactly one Payment row for the
    payment id. *)
Theorem successful_run_completes :
  forall (db0 : DB) (oid pid : string) (noise : nat -> list event),
    pid <> "" ->
    fresh oid pid db0 ->
    (forall i, forallb quiet (noise i) = true) ->
    let s := exec (saga_init db0) (successful_run oid pid noise) in
    (exists payment_result shipping_result,
        pc s = Returned (RCompleted oid payment_result shipping_result)
        /\ pr_status payment_result = "charged"
        /\ sr_status shipping_result = "shipped")
    /\ st_current_step (get_status (wf s)) = "completed"
    /\ event_types oid (db s) = saga_steps
    /\ Forall (fun ty => event_count oid ty (db s) = 1) saga_steps
    /\ payment_rows pid (db s) = 1.
Proof.
  intros db0 oid pid noise Hpid Hf Hq s.
  destruct (successful_run_stage oid pid noise Hq) as (Hk & Hh & Hst).
  destruct (exec_sound oid pid Hpid _ (saga_init db0) (saga_inv_init oid pid db0 Hf)
              Hst Hh eq_refl) as ((n & Hp & Hl) & Hc & Hs).
  fold s in Hp, Hl, Hc, Hs. simpl stage in Hs. rewrite Hk in Hs.
  assert (Hr : reachable db0 oid pid s) by (exists (successful_run oid pid noise); split; auto).
  pose proof (phase_ok_reachable db0 oid pid s Hr) as Hph.
  unfold phase_ok in Hph. unfold level in Hl.
  destruct (pc s) as [| | | | |? ? [| | |]|[?|o pr sr]|?]; try discriminate Hs.
  destruct Hl as (-> & -> & Hpr & Hsr). destruct Hp as ((Ht & _) & _ & _ & _ & Hpay).
  apply andb_prop in Hph. destruct Hph as [_ Hph]. apply String.eqb_eq in Hph.
  split; [exists pr, sr; repeat split; assumption|].
  split; [exact Hph|]. split; [exact Ht|]. split; [|exact Hpay].
  unfold event_count. rewrite Ht. repeat constructor.
Qed.

Lemma successful_run_completes_witness :
  event_types "order-1"
    (db (exec (saga_init empty_db)
              (successful_run "order-1" "payment-1"
                 (fun _ => [Attempt Fails; Signal (UpdateAddress addr_a); Attempt Stalls]))))
  = saga_steps
  /\ payment_rows "payment-1"
       (db (exec (saga_init empty_db)
                 (successful_run "order-1" "payment-1"
                    (fun _ => [Attempt Fails; Signal (UpdateAddress addr_a); Attempt Stalls]))))
     = 1.
Proof.
  assert (Hpid : "payment-1" <> "") by discriminate.
  assert (Hf : fresh "order-1" "payment-1" empty_db) by (repeat split).
  destruct (successful_run_completes empty_db "order-1" "payment-1"
              (fun _ => [Attempt Fails; Signal (UpdateAddress addr_a); Attempt Stalls])
              Hpid Hf (fun _ => eq_refl)) as (_ & _ & Ht & _ & Hp).
  split; [exact Ht | exact Hp].
Defined.

(* ----------------------------------------------------------------- *)
(** ** Address updates (C6) *)

Lemma same_run_step : forall s1 s2 ev, same_run s1 s2 -> same_run (step s1 ev) (step s2 ev).
Proof.
  intros [p1 [o1 q1 od1 a1 c1 ph1] d1 k1] [p2 [o2 q2 od2 a2 c2 ph2] d2 k2] ev H.
  unfold same_run in H. cbn in H. destruct H as (-> & -> & -> & -> & -> & -> & ->).
  unfold step. cbn [pc]. destruct (closed p2) eqn:Hc; [repeat split|].
  destruct ev as [o q|sg|dr|e|].
  2:{ destruct sg; repeat split. }
  all: unfold advance; cbn [pc wf db attempt _order_id _payment_id _order_data];
    destruct p2 as [| | | | |pr child cpc|r|e']; try discriminate Hc;
    try (repeat split; fail).
  all: try match goal with
       | |- context [execute_activity ?act ?k ?ev ?d] =>
         destruct (execute_activity act k ev d) as [[[?|?|] ?] ?]
       | |- context [shipping_step ?c ?cpc ?k ?ev ?d] =>
         destruct (shipping_step c cpc k ev d) as [[[? [| | |]] ?] ?]
       end.
  all: unfold after_receive, after_validate, after_review, after_charge, after_shipping;
    cbn [_is_cancelled set_order_data set_current_step].
  all: repeat match goal with
       | |- context [if ?b then _ else _] => destruct b
       end; repeat split.
Qed.

Lemma same_run_exec : forall evs s1 s2, same_run s1 s2 -> same_run (exec s1 evs) (exec s2 evs).
Proof.
  induction evs as [|ev evs IH]; intros s1 s2 H; [exact H|].
  rewrite !exec_cons. apply IH. now apply same_run_step.
Qed.

(** The claim C6 as it stands fails in its second half: the dispatch step
    observes no address at all.  Two runs whose second address update
    differs store different addresses, yet they hand the dispatch step the
    same input and the step leaves the same database. *)
Lemma dispatch_does_not_observe_address :
  _shipping_address (wf (run_to_dispatch addr_a)) = addr_a
  /\ _shipping_address (wf (run_to_dispatch addr_b)) = addr_b
  /\ addr_a <> addr_b
  /\ dispatch_input (run_to_dispatch addr_a) <> None
  /\ dispatch_input (run_to_dispatch addr_a) = dispatch_input (run_to_dispatch addr_b)
  /\ db (step (run_to_dispatch addr_a) (Attempt Passes))
     = db (step (run_to_dispatch addr_b) (Attempt Passes))
  /\ has_event "order-1" "carrier_dispatched"
       (db (step (run_to_dispatch addr_a) (Attempt Passes))) = true.
Proof.
  repeat match goal with |- _ /\ _ => split end;
    try (vm_compute; reflexivity); vm_compute; discriminate.
Qed.

Lemma same_run_refl : forall s, same_run s s.
Proof. intros s. repeat split. Qed.

Lemma same_run_trans : forall s1 s2 s3, same_run s1 s2 -> same_run s2 s3 -> same_run s1 s3.
Proof.
  intros s1 s2 s3 (H1 & H2 & H3 & H4 & H5 & H6 & H7) (K1 & K2 & K3 & K4 & K5 & K6 & K7).
  repeat split; etransitivity; eassumption.
Qed.

Lemma same_run_update_address : forall s a, same_run (step s (Signal (UpdateAddress a))) s.
Proof.
  intros s a. unfold step. destruct (closed (pc s)); repeat split.
Qed.

(** Only the handler of the address update writes the address. *)
Lemma address_kept_step : forall s ev,
  keeps_address ev = true ->
  _shipping_address (wf (step s ev)) = _shipping_address (wf s).
Proof.
  intros [p w d n] ev H. unfold step. fields.
  destruct (closed p) eqn:Hc; [reflexivity|].
  destruct ev as [o q|[|a]|dr|e|]; try discriminate H; try reflexivity.
  all: unfold advance; fields.
  all: destruct p as [| | | | |pr child cpc|r|e']; try discriminate Hc; try reflexivity.
  all: try (unfold shipping_step; destruct cpc).
  all: try match goal with
       | |- context [execute_activity ?act ?k ?ev ?d] =>
         destruct (execute_activity act k ev d) as [[[?|?|] ?] ?]
       end.
  all: unfold after_receive, after_validate, after_review, after_charge, after_shipping,
         shipping_failed; fields.
  all: repeat match goal with
       | |- context [if ?b then _ else _] => destruct b; fields
       end; reflexivity.
Qed.

Lemma address_kept_exec : forall evs s,
  forallb keeps_address evs = true ->
  _shipping_address (wf (exec s evs)) = _shipping_address (wf s).
Proof.
  induction evs as [|ev evs IH]; intros s H; [reflexivity|].
  simpl in H. apply andb_prop in H. destruct H as [H1 H2].
  rewrite exec_cons, IH by exact H2. now apply address_kept_step.
Qed.

(** C6, amended. For every pair of address updates applied to a saga, the
    second while it is running, the stored shipping address, which is the
    one the query reports, is from then on the second one, with nothing of
    the first merged in, until another address update arrives.  The steps
    of the saga, the dispatch step among them, do not observe it: they run
    on the same order data and leave the same database as in the run
    without the two address updates. *)
Theorem address_last_writer_wins :
  forall (s : Saga) (a1 a2 : Dict) (between later : list event),
    closed (pc (exec (step s (Signal (UpdateAddress a1))) between)) = false ->
    forallb keeps_address later = true ->
    let s2 := exec (step (exec (step s (Signal (UpdateAddress a1))) between)
                         (Signal (UpdateAddress a2))) later in
    st_shipping_address (get_status (wf s2)) = a2
    /\ pc s2 = pc (exec (exec s between) later)
    /\ db s2 = db (exec (exec s between) later)
    /\ dispatch_input s2 = dispatch_input (exec (exec s between) later).
Proof.
  intros s a1 a2 between later Hc Hk s2. subst s2.
  set (s1 := exec (step s (Signal (UpdateAddress a1))) between) in *.
  split.
  - simpl. rewrite address_kept_exec by exact Hk. rewrite step_signal by exact Hc.
    reflexivity.
  - assert (Hsame : same_run (exec (step s1 (Signal (UpdateAddress a2))) later)
                             (exec (exec s between) later)).
    { apply same_run_exec. eapply same_run_trans; [apply same_run_update_address|].
      subst s1. apply same_run_exec. apply same_run_update_address. }
    destruct Hsame as (Hpc & Hdb & _). split; [exact Hpc|]. split; [exact Hdb|].
    unfold dispatch_input. now rewrite Hpc, Hdb.
Qed.

Lemma address_last_writer_wins_witness :
  st_shipping_address
    (get_status
       (wf (exec (step (exec (step (exec (saga_init empty_db) [Start "order-1" "payment-1"])
                                   (Signal (UpdateAddress addr_a)))
                             [Attempt Passes; Attempt Passes])
                       (Signal (UpdateAddress addr_b)))
                 [TimerFired; Attempt Passes; Attempt Passes]))) = addr_b
  /\ dispatch_input
       (exec (step (exec (step (exec (saga_init empty_db) [Start "order-1" "payment-1"])
                               (Signal (UpdateAddress addr_a)))
                         [Attempt Passes; Attempt Passes])
                   (Signal (UpdateAddress addr_b)))
             [TimerFired; Attempt Passes; Attempt Passes])
     = dispatch_input
         (exec (exec (exec (saga_init empty_db) [Start "order-1" "payment-1"])
                     [Attempt Passes; Attempt Passes])
               [TimerFired; Attempt Passes; Attempt Passes]).
Proof.
  assert (Hc : closed (pc (exec (step (exec (saga_init empty_db)
                                            [Start "order-1" "payment-1"])
                                      (Signal (UpdateAddress addr_a)))
                                [Attempt Passes; Attempt Passes])) = false)
    by (vm_compute; reflexivity).
  destruct (address_last_writer_wins
              (exec (saga_init empty_db) [Start "order-1" "payment-1"])
              addr_a addr_b [Attempt Passes; Attempt Passes]
              [TimerFired; Attempt Passes; Attempt Passes] Hc eq_refl)
    as (Ha & _ & _ & Hd).
  split; [exact Ha | exact Hd].
Defined.

(* ================================================================= *)
(** * Further properties *)

(* ----------------------------------------------------------------- *)
(** ** The operations on the database *)

Ltac destruct_matches_in H :=
  repeat match type of H with
         | context [match ?x with _ => _ end] =>
           lazymatch x with
           | context [match _ with _ => _ end] => fail
           | _ => destruct x eqn:?
           end
         end.

Lemma add_event_after_order : forall k ty payload d,
  order_exists k d = true ->
  add_event (Some k) ty payload d
  = Ok {| orders := orders d; payments := payments d;
          events := events d ++ [ {| e_id := next_event_id d; e_order_id := k;
                                     e_type := ty; e_payload_json := payload;
                                     e_ts := clock d |} ];
          next_event_id := S (next_event_id d); clock := clock d |}.
Proof.
  intros k ty payload d H. unfold add_event. unfold order_exists in H. now rewrite H.
Qed.

Lemma order_exists_add_order : forall k st addr d,
  order_exists k (commit (add_order k st addr d)) = true.
Proof.
  intros. unfold order_exists. simpl. rewrite existsb_app. simpl.
  now rewrite String.eqb_refl, orb_true_r.
Qed.

(** X1. An operation that raises has written nothing: for each of the five
    operations, whatever the draw of the fault hook, the order and the
    database, a raised error comes with the database exactly as it was. *)
Theorem operations_raise_without_writing :
  forall (order_id payment_id : string) (order : OrderData) (d : draw) (db0 : DB),
    wrote_nothing_on_error (order_received order_id d db0) db0
    /\ wrote_nothing_on_error (order_validated order d db0) db0
    /\ wrote_nothing_on_error (payment_charged order payment_id d db0) db0
    /\ wrote_nothing_on_error (package_prepared order d db0) db0
    /\ wrote_nothing_on_error (carrier_dispatched order d db0) db0.
Proof.
  intros order_id payment_id order d db0.
  assert (Hgen : forall (A : Type) (r : result A * DB),
             (forall e d', r = (Raise e, d') -> d' = db0) ->
             wrote_nothing_on_error r db0).
  { intros A [[v|e] d'] H; unfold wrote_nothing_on_error; simpl; [exact I|].
    now apply (H e). }
  repeat match goal with |- _ /\ _ => split end; apply Hgen; intros e d' H.
  - unfold order_received in H. destruct (flaky_call d); [now inversion H|].
    destruct (session_get_order db0 (Some order_id)); [discriminate H|].
    rewrite add_event_after_order in H by apply order_exists_add_order. discriminate H.
  - unfold order_validated in H. destruct_matches_in H; inversion H; reflexivity.
  - unfold payment_charged in H. destruct_matches_in H; inversion H; reflexivity.
  - unfold package_prepared in H. destruct_matches_in H; inversion H; reflexivity.
  - unfold carrier_dispatched in H. destruct_matches_in H; inversion H; reflexivity.
Qed.


(** X3. [order_validated] on an order that has no row (or names none)
    raises and writes nothing; the check of the items comes first, so the
    error is "No items to validate" for an order without items and "Order
    not found" otherwise. *)
Theorem order_validated_errors :
  forall (order : OrderData) (db0 : DB),
    session_get_order db0 (od_order_id order) = None ->
    order_validated order Passes db0
    = (Raise (ValueError (match od_items order with
                          | [] => "No items to validate"
                          | _ :: _ => "Order not found"
                          end)), db0).
Proof.
  intros order db0 H. unfold order_validated. simpl flaky_call. cbv iota.
  destruct (od_items order); [reflexivity|]. now rewrite H.
Qed.

Lemma order_validated_errors_witness :
  order_validated {| od_order_id := Some "order-9";
                     od_items := [ {| sku := "ABC"; qty := None |} ] |} Passes db_with_order
  = (Raise (ValueError "Order not found"), db_with_order).
Proof.
  exact (order_validated_errors
           {| od_order_id := Some "order-9";
              od_items := [ {| sku := "ABC"; qty := None |} ] |} db_with_order eq_refl).
Defined.

Lemma find_set_order_state : forall k st d o,
  find (fun x => o_id x =? k) (orders d) = Some o ->
  find (fun x => o_id x =? k) (orders (set_order_state k st d))
  = Some {| o_id := o_id o; o_state := st; o_address_json := o_address_json o;
            o_created_at := o_created_at o; o_updated_at := clock d |}.
Proof.
  intros k st d o. unfold set_order_state. simpl.
  induction (orders d) as [|x l IH]; simpl; [discriminate|].
  destruct (o_id x =? k) eqn:E; simpl.
  - rewrite E. intros H; inversion H; subst. reflexivity.
  - rewrite E. exact IH.
Qed.

(** X4. Whenever [order_validated] returns, it returns True, never False,
    and the row of the order is then in state "validated"; repeating it
    writes nothing.  It writes nothing either when the row was in that
    state already; from any other state, "paid" included, it sets the state
    and records one more order_validated event. *)
Theorem order_validated_idempotent :
  forall (order : OrderData) (d : draw) (db0 db1 : DB) (v : bool),
    order_validated order d db0 = (Ok v, db1) ->
    v = true
    /\ order_validated order Passes db1 = (Ok true, db1)
    /\ (exists row, session_get_order db1 (od_order_id order) = Some row
                    /\ o_state row = "validated")
    /\ (exists row0,
           session_get_order db0 (od_order_id order) = Some row0
           /\ if o_state row0 =? "validated" then db1 = db0
              else events db1 = events db0 ++ [order_validated_event order db0 row0]
                   /\ payments db1 = payments db0
                   /\ clock db1 = S (clock db0)).
Proof.
  intros order d db0 db1 v H.
  assert (Hd : d = Passes).
  { unfold order_validated in H. destruct d; try discriminate H. reflexivity. }
  subst d. unfold order_validated in H. simpl flaky_call in H. cbv iota in H.
  destruct (od_items order) as [|it its] eqn:Hit; [discriminate H|].
  destruct (session_get_order db0 (od_order_id order)) as [row0|] eqn:Hget;
    [|discriminate H].
  assert (Hvalid : forall dbx row, session_get_order dbx (od_order_id order) = Some row ->
                     o_state row = "validated" ->
                     order_validated order Passes dbx = (Ok true, dbx)).
  { intros dbx row Hg Hs. unfold order_validated. simpl flaky_call. cbv iota.
    rewrite Hit, Hg, Hs. reflexivity. }
  destruct (o_state row0 =? "validated") eqn:Hst.
  - inversion H; subst. apply String.eqb_eq in Hst.
    split; [reflexivity|]. split; [now apply (Hvalid _ row0)|].
    split; [now exists row0|]. exists row0. split; [reflexivity|].
    apply String.eqb_eq in Hst. now rewrite Hst.
  - destruct (od_order_id order) as [k|] eqn:Hk; [|discriminate Hget].
    simpl in Hget.
    assert (Hid : o_id row0 = k).
    { apply find_some in Hget. destruct Hget as [_ Hget]. now apply String.eqb_eq. }
    assert (Hex : order_exists k (set_order_state (o_id row0) "validated" db0) = true).
    { rewrite order_exists_set_state. unfold order_exists.
      destruct (existsb (fun o => o_id o =? k) (orders db0)) eqn:E; [reflexivity|].
      rewrite (existsb_false_find _ _ _ E) in Hget. discriminate Hget. }
    rewrite (add_event_after_order _ _ _ _ Hex) in H. inversion H; subst v db1. clear H.
    pose proof (find_set_order_state (o_id row0) "validated" db0 row0) as Hf.
    rewrite Hid in Hf. specialize (Hf Hget).
    split; [reflexivity|]. split; [|split].
    + eapply Hvalid; [simpl; rewrite Hid; exact Hf | reflexivity].
    + eexists. split; [simpl; rewrite Hid; exact Hf | reflexivity].
    + exists row0. split; [reflexivity|]. rewrite Hst.
      unfold order_validated_event. rewrite Hid, Hk. repeat split.
Qed.

Lemma order_validated_idempotent_witness :
  order_validated (received_order "order-1") Passes
    (snd (order_validated (received_order "order-1") Passes db_after_first_run))
  = (Ok true, snd (order_validated (received_order "order-1") Passes db_after_first_run))
  /\ length (events (snd (order_validated (received_order "order-1") Passes
                            db_after_first_run)))
     = S (length (events db_after_first_run)).
Proof.
  assert (H : order_validated (received_order "order-1") Passes db_after_first_run
              = (Ok true, snd (order_validated (received_order "order-1") Passes
                                 db_after_first_run)))
    by (vm_compute; reflexivity).
  destruct (order_validated_idempotent _ _ _ _ _ H) as (_ & H2 & _ & _).
  split; [exact H2 | vm_compute; reflexivity].
Defined.

(** X5. A first charge is recorded in full: for an order that has a row, a
    payment id that has none and is not empty, [payment_charged] returns
    "charged" with the sum of the quantities; afterwards the payment is
    found under its id with that order, status and amount, the order is in
    state "paid", and one payment_charged event carrying the payment id and
    the amount has been appended, all in one transaction. *)
Theorem payment_charged_records :
  forall (order : OrderData) (oid pid : string) (db0 : DB),
    od_order_id order = Some oid ->
    order_exists oid db0 = true ->
    session_get_payment db0 pid = None ->
    pid <> "" ->
    let db1 := snd (payment_charged order pid Passes db0) in
    fst (payment_charged order pid Passes db0)
      = Ok {| pr_status := "charged"; pr_amount := PyInt (order_amount order) |}
    /\ session_get_payment db1 pid = Some (new_payment_row order oid pid db0)
    /\ (exists o, session_get_order db1 (Some oid) = Some o /\ o_state o = "paid")
    /\ events db1 = events db0 ++ [payment_charged_event order oid pid db0]
    /\ payments db1 = payments db0 ++ [new_payment_row order oid pid db0]
    /\ clock db1 = S (clock db0).
Proof.
  intros order oid pid db0 Hoid Hex Hget Hpid db1.
  destruct (existsb_find_some _ _ _ Hex) as (o & Ho).
  assert (Hid : o_id o = oid).
  { apply find_some in Ho. destruct Ho as [_ Ho]. now apply String.eqb_eq. }
  assert (Hs : scalar_truthy (Some pid) = true).
  { simpl. apply negb_true_iff. now apply String.eqb_neq. }
  assert (H : payment_charged order pid Passes db0
              = (Ok {| pr_status := "charged"; pr_amount := PyInt (order_amount order) |},
                 {| orders := orders (set_order_state oid "paid" db0);
                    payments := payments db0 ++ [new_payment_row order oid pid db0];
                    events := events db0 ++ [payment_charged_event order oid pid db0];
                    next_event_id := S (next_event_id db0);
                    clock := S (clock db0) |})).
  { unfold payment_charged. simpl flaky_call. cbv iota. rewrite Hget, Hoid.
    unfold insert_payment_on_conflict_do_nothing.
    unfold session_get_payment in Hget. rewrite (find_none_existsb _ _ _ Hget).
    unfold order_exists in Hex. rewrite Hex. cbv beta iota. rewrite Hs.
    simpl negb. cbv iota. unfold session_get_order at 1. simpl orders. rewrite Ho, Hid.
    rewrite add_event_after_order
      by (rewrite order_exists_set_state; exact Hex).
    reflexivity. }
  subst db1. rewrite H. simpl fst. simpl snd.
  split; [reflexivity|]. split; [|split; [|repeat split]].
  - unfold session_get_payment in *. simpl payments.
    rewrite (find_app_last _ _ _ _ Hget). simpl. now rewrite String.eqb_refl.
  - pose proof (find_set_order_state oid "paid" db0 o Ho) as Hf.
    eexists. split; [exact Hf | reflexivity].
Qed.

Lemma payment_charged_records_witness :
  fst (payment_charged (received_order "order-1") "payment-1" Passes db_with_order)
  = Ok {| pr_status := "charged"; pr_amount := PyInt 1 |}
  /\ session_get_payment
       (snd (payment_charged (received_order "order-1") "payment-1" Passes db_with_order))
       "payment-1"
     = Some (new_payment_row (received_order "order-1") "order-1" "payment-1" db_with_order).
Proof.
  assert (Hpid : "payment-1" <> "") by discriminate.
  destruct (payment_charged_records (received_order "order-1") "order-1" "payment-1"
              db_with_order eq_refl eq_refl eq_refl Hpid) as (H1 & H2 & _).
  split; [exact H1 | exact H2].
Defined.

(** X6. A charge for an order that has no row, or for an order dictionary
    that names none, stores nothing: when the payment id is already
    recorded the stored status and amount are returned as they are, and
    otherwise the operation raises an integrity error. *)
Theorem payment_charged_unknown_order :
  forall (order : OrderData) (pid : string) (db0 : DB),
    order_known order db0 = false ->
    match session_get_payment db0 pid with
    | Some row =>
      payment_charged order pid Passes db0
      = (Ok {| pr_status := p_status row; pr_amount := PyFloat (p_amount row) |}, db0)
    | None =>
      exists msg, payment_charged order pid Passes db0 = (Raise (IntegrityError msg), db0)
    end.
Proof.
  intros order pid db0 H. unfold payment_charged. simpl flaky_call. cbv iota.
  destruct (session_get_payment db0 pid) eqn:Hget; [reflexivity|].
  unfold insert_payment_on_conflict_do_nothing.
  unfold session_get_payment in Hget. rewrite (find_none_existsb _ _ _ Hget).
  unfold order_known in H. destruct (od_order_id order) as [k|].
  - unfold order_exists in H. rewrite H. eexists. reflexivity.
  - eexists. reflexivity.
Qed.

Lemma payment_charged_unknown_order_witness :
  exists msg,
    payment_charged (received_order "order-9") "payment-9" Passes db_with_order
    = (Raise (IntegrityError msg), db_with_order).
Proof.
  exact (payment_charged_unknown_order (received_order "order-9") "payment-9"
           db_with_order eq_refl).
Defined.

(** X7. For the empty payment id nothing is ever stored: for an order that
    has a row, [payment_charged] answers "charged" with the amount as a
    float, read back from the row it has just inserted, and leaves the
    database as it was, without Payment row, event or change of the order's
    state. *)
Theorem payment_charged_empty_id :
  forall (order : OrderData) (db0 : DB),
    order_known order db0 = true ->
    session_get_payment db0 "" = None ->
    payment_charged order "" Passes db0
    = (Ok {| pr_status := "charged"; pr_amount := PyFloat (order_amount order) |}, db0).
Proof.
  intros order db0 H Hget. unfold payment_charged. simpl flaky_call. cbv iota.
  rewrite Hget. unfold insert_payment_on_conflict_do_nothing.
  unfold session_get_payment in Hget. rewrite (find_none_existsb _ _ _ Hget).
  unfold order_known in H. destruct (od_order_id order) as [k|]; [|discriminate H].
  unfold order_exists in H. rewrite H. cbv beta iota. simpl scalar_truthy. simpl negb.
  cbv iota. unfold session_get_payment. simpl payments.
  rewrite (find_app_last _ _ _ _ Hget). simpl. reflexivity.
Qed.

Lemma payment_charged_empty_id_witness :
  payment_charged (received_order "order-1") "" Passes db_with_order
  = (Ok {| pr_status := "charged"; pr_amount := PyFloat 1 |}, db_with_order).
Proof.
  exact (payment_charged_empty_id (received_order "order-1") db_with_order eq_refl eq_refl).
Defined.

Lemma records_once_shape : forall ty status answer order d,
  records_once
    (fun order dr db0 =>
       match flaky_call dr with
       | Some e => (Raise e, db0)
       | None =>
         if select_event (od_order_id order) ty db0 then (Ok answer, db0)
         else match add_event (od_order_id order) ty
                      [("order_id", json_of_id (od_order_id order));
                       ("status", JStr status)] db0 with
              | Raise e => (Raise e, db0)
              | Ok db1 => (Ok answer, commit db1)
              end
       end)
    ty status answer order d.
Proof.
  intros ty status answer order d. unfold records_once. simpl flaky_call. cbv iota.
  destruct (select_event (od_order_id order) ty d) eqn:Hsel; [reflexivity|].
  unfold order_known. destruct (od_order_id order) as [k|] eqn:Hk.
  - destruct (order_exists k d) eqn:Hex.
    + rewrite (add_event_after_order _ _ _ _ Hex).
      exists k. eexists. split; [reflexivity|]. split; [reflexivity|].
      simpl. split; [reflexivity|]. split; [reflexivity|]. split; [reflexivity|].
      assert (Hnew : existsb (fun e => (e_order_id e =? k) && (e_type e =? ty))
                       (events d ++
                        [ {| e_id := next_event_id d; e_order_id := k; e_type := ty;
                             e_payload_json := [("order_id", JStr k);
                                                ("status", JStr status)];
                             e_ts := clock d |} ]) = true).
      { rewrite existsb_app. simpl. rewrite !String.eqb_refl. simpl.
        now rewrite orb_true_r. }
      split; [exact Hnew|]. now rewrite Hnew.
    + unfold add_event. unfold order_exists in Hex. rewrite Hex. eexists. reflexivity.
  - simpl. eexists. reflexivity.
Qed.

(** X8. Each of the two shipping operations records its event once per
    order: [package_prepared] and [carrier_dispatched] write nothing when
    the order already has their event, record it otherwise, after which a
    repetition writes nothing, and raise an integrity error, writing
    nothing, when the order has no row.  Neither looks at the event of the
    other: a dispatch is recorded whether or not the package was
    prepared. *)
Theorem shipping_operations_record_once :
  forall (order : OrderData) (db0 : DB),
    records_once package_prepared "package_prepared" "prepared" "Package ready" order db0
    /\ records_once carrier_dispatched "carrier_dispatched" "dispatched" "Dispatched"
         order db0.
Proof.
  intros order db0. split.
  - exact (records_once_shape "package_prepared" "prepared" "Package ready" order db0).
  - exact (records_once_shape "carrier_dispatched" "dispatched" "Dispatched" order db0).
Qed.

(* ----------------------------------------------------------------- *)
(** ** What the saga does to the database *)

Lemma execute_activity_db : forall (A : Type) (act : draw -> DB -> result A * DB) n ev d,
  snd (fst (execute_activity act n ev d))
  = match ev with Attempt dr => snd (act dr d) | _ => d end.
Proof.
  intros A act n ev d. unfold execute_activity.
  destruct ev as [o q|sg|dr|e|]; try reflexivity.
  destruct (act dr d) as [[a|e] d']; [reflexivity|].
  rewrite retries_always. reflexivity.
Qed.

(** Every step of the saga leaves the database as the invocation it causes
    leaves it. *)
Lemma step_db : forall s ev, db (step s ev) = run_operation (awaited_operation s ev) (db s).
Proof.
  intros [p w d n] ev. unfold step, awaited_operation. fields.
  destruct (closed p) eqn:Hc.
  { destruct p; try discriminate Hc; destruct ev; reflexivity. }
  destruct ev as [o q|sg|dr|e|].
  2:{ reflexivity. }
  all: unfold advance; fields.
  all: destruct p as [| | | | |pr child cpc|r|e']; try discriminate Hc;
    try reflexivity.
  all: try (unfold shipping_step; destruct cpc); try reflexivity.
  all: try (match goal with
       | |- context [execute_activity ?act ?k ?ev ?d] =>
         pose proof (execute_activity_db _ act k ev d) as Hdb;
         destruct (execute_activity act k ev d) as [[[?|?|] ?] ?]
       end; simpl in Hdb; subst).
  all: unfold after_receive, after_validate, after_review, after_charge, after_shipping,
         shipping_failed; fields.
  all: repeat match goal with
       | |- context [if ?b then _ else _] => destruct b; fields
       end.
  all: reflexivity.
Qed.

(** A property of databases kept by every operation is kept by every run. *)
Lemma exec_db_invariant : forall (P : DB -> Prop),
  (forall o d, P d -> P (run_operation o d)) ->
  forall evs s, P (db s) -> P (db (exec s evs)).
Proof.
  intros P HP. induction evs as [|ev evs IH]; intros s H; [exact H|].
  rewrite exec_cons. apply IH. rewrite step_db. now apply HP.
Qed.

(* ----------------------------------------------------------------- *)
(** ** The tables only grow *)

Lemma extends_refl : forall d, extends d d.
Proof.
  intros d. unfold extends.
  repeat match goal with |- _ /\ _ => split end;
    try (exists []; now rewrite app_nil_r); apply Nat.le_refl.
Qed.

Lemma extends_trans : forall d1 d2 d3, extends d1 d2 -> extends d2 d3 -> extends d1 d3.
Proof.
  intros d1 d2 d3 ((l1 & H1) & (m1 & H2) & (n1 & H3) & H4 & H5)
                  ((l2 & G1) & (m2 & G2) & (n2 & G3) & G4 & G5).
  unfold extends. repeat match goal with |- _ /\ _ => split end.
  - exists (l1 ++ l2). now rewrite G1, H1, app_assoc.
  - exists (m1 ++ m2). now rewrite G2, H2, app_assoc.
  - exists (n1 ++ n2). now rewrite G3, H3, app_assoc.
  - now apply Nat.le_trans with (clock d2).
  - now apply Nat.le_trans with (next_event_id d2).
Qed.

Lemma extends_commit : forall d, extends d (commit d).
Proof.
  intros d. unfold extends, commit. simpl.
  repeat match goal with |- _ /\ _ => split end;
    try (exists []; now rewrite app_nil_r); auto.
Qed.

Lemma extends_add_order : forall k st addr d, extends d (add_order k st addr d).
Proof.
  intros k st addr d. unfold extends, add_order, set_orders. simpl.
  repeat match goal with |- _ /\ _ => split end;
    try (exists []; now rewrite app_nil_r); auto.
  rewrite map_app. eexists. reflexivity.
Qed.

Lemma order_identity_set_state : forall k st d,
  map order_identity (orders (set_order_state k st d)) = map order_identity (orders d).
Proof.
  intros k st d. unfold set_order_state, set_orders. simpl. rewrite map_map.
  apply map_ext. intros o. now destruct (o_id o =? k).
Qed.

Lemma extends_set_order_state : forall k st d, extends d (set_order_state k st d).
Proof.
  intros k st d. unfold extends.
  repeat match goal with |- _ /\ _ => split end;
    try (exists []; rewrite app_nil_r; reflexivity); try apply Nat.le_refl.
  exists []. rewrite app_nil_r. apply order_identity_set_state.
Qed.

Lemma extends_add_event : forall oid ty payload d d',
  add_event oid ty payload d = Ok d' -> extends d d'.
Proof.
  intros oid ty payload d d' H. unfold add_event in H.
  destruct oid as [k|]; [|discriminate H].
  destruct (existsb _ _); [|discriminate H].
  injection H as <-. unfold extends. simpl.
  repeat match goal with |- _ /\ _ => split end;
    try (exists []; now rewrite app_nil_r); auto.
  eexists. reflexivity.
Qed.

Lemma extends_insert_payment : forall pid oid st amount d d' r,
  insert_payment_on_conflict_do_nothing pid oid st amount d = Ok (d', r) -> extends d d'.
Proof.
  intros pid oid st amount d d' r H. unfold insert_payment_on_conflict_do_nothing in H.
  destruct (existsb _ (payments d)).
  { injection H as <- _. apply extends_refl. }
  destruct oid as [k|]; [|discriminate H].
  destruct (existsb _ _); [|discriminate H].
  injection H as <- _. unfold extends, set_payments. simpl.
  repeat match goal with |- _ /\ _ => split end;
    try (exists []; now rewrite app_nil_r); auto.
  eexists. reflexivity.
Qed.

Ltac grows :=
  first
    [ apply extends_refl
    | match goal with
      | He : add_event _ _ _ ?d0 = Ok ?d2 |- extends _ (commit ?d2) =>
        apply extends_trans with d2; [|apply extends_commit];
        apply extends_trans with d0; [|apply (extends_add_event _ _ _ _ _ He)]; grows
      | |- extends _ (set_order_state _ _ ?d0) =>
        apply extends_trans with d0; [grows | apply extends_set_order_state]
      | |- extends _ (commit ?d0) =>
        apply extends_trans with d0; [grows | apply extends_commit]
      | |- extends _ (add_order _ _ _ ?d0) =>
        apply extends_trans with d0; [grows | apply extends_add_order]
      | Hi : insert_payment_on_conflict_do_nothing _ _ _ _ ?d0 = Ok (?d1, _)
        |- extends _ ?d1 =>
        apply extends_trans with d0; [grows | apply (extends_insert_payment _ _ _ _ _ _ _ Hi)]
      end ].

Lemma run_operation_extends : forall o d, extends d (run_operation o d).
Proof.
  intros o d.
  assert (Hgen : forall (A : Type) (r : result A * DB),
             (forall a d', r = (a, d') -> extends d d') -> extends d (snd r)).
  { intros A [a d'] H. now apply (H a). }
  destruct o as [|k dr|order dr|order pid dr|order dr|order dr]; simpl;
    [apply extends_refl|apply Hgen; intros a d' H ..].
  - unfold order_received in H. destruct_matches_in H; inversion H; subst; grows.
  - unfold order_validated in H. destruct_matches_in H; inversion H; subst; grows.
  - unfold payment_charged in H. destruct_matches_in H; inversion H; subst; grows.
  - unfold package_prepared in H. destruct_matches_in H; inversion H; subst; grows.
  - unfold carrier_dispatched in H. destruct_matches_in H; inversion H; subst; grows.
Qed.

(** X9. The saga only ever adds: after any events whatever, the events and
    the payments the database held before are still there, first and
    unchanged, every order row is still there with its key, its address and
    its time of creation, and neither the clock nor the event counter has
    gone back. *)
Theorem saga_only_appends :
  forall (s : Saga) (evs : list event), extends (db s) (db (exec s evs)).
Proof.
  intros s evs.
  apply (exec_db_invariant (fun d => extends (db s) d)); [|apply extends_refl].
  intros o d H. apply extends_trans with d; [exact H|apply run_operation_extends].
Qed.

(* ----------------------------------------------------------------- *)
(** ** The constraints of the schema *)

Ltac conjuncts := repeat match goal with |- _ /\ _ => split end.

Lemma order_exists_true_in : forall k d,
  order_exists k d = true <-> In k (map o_id (orders d)).
Proof.
  intros k d. unfold order_exists. rewrite existsb_exists, in_map_iff. split.
  - intros (o & Hin & He). apply String.eqb_eq in He. eauto.
  - intros (o & He & Hin). exists o. split; [exact Hin|]. now apply String.eqb_eq.
Qed.

Lemma NoDup_snoc : forall (A : Type) (l : list A) a,
  NoDup l -> ~ In a l -> NoDup (l ++ [a]).
Proof.
  intros A l a Hl Ha. apply NoDup_app; [exact Hl | constructor; [intros []|constructor] |].
  intros x Hx [<-|[]]. contradiction.
Qed.

Lemma integrity_empty : db_integrity empty_db.
Proof.
  unfold db_integrity, empty_db. simpl. conjuncts; constructor.
Qed.

Lemma integrity_commit : forall d, db_integrity d -> db_integrity (commit d).
Proof.
  intros d (H1 & H2 & H3 & H4 & H5 & H6 & H7 & H8). unfold db_integrity.
  conjuncts; try assumption.
  apply Forall_impl with (2 := H8). intros e He. simpl. lia.
Qed.

Lemma integrity_add_order : forall k st addr d,
  order_exists k d = false -> db_integrity d -> db_integrity (add_order k st addr d).
Proof.
  intros k st addr d Hk (H1 & H2 & H3 & H4 & H5 & H6 & H7 & H8).
  assert (Hmono : forall j, order_exists j d = true
                            -> order_exists j (add_order k st addr d) = true).
  { intros j Hj. unfold order_exists in *. simpl. rewrite existsb_app, Hj. reflexivity. }
  unfold db_integrity. conjuncts; try assumption.
  - simpl. rewrite map_app. apply NoDup_snoc; [exact H1|].
    intros Hin. apply order_exists_true_in in Hin. simpl in Hin. congruence.
  - apply Forall_impl with (2 := H5). intros e. apply Hmono.
  - apply Forall_impl with (2 := H6). intros p. apply Hmono.
Qed.

Lemma o_id_set_state : forall k st d,
  map o_id (orders (set_order_state k st d)) = map o_id (orders d).
Proof.
  intros k st d. unfold set_order_state, set_orders. simpl. rewrite map_map.
  apply map_ext. intros o. now destruct (o_id o =? k).
Qed.

Lemma integrity_set_order_state : forall k st d,
  db_integrity d -> db_integrity (set_order_state k st d).
Proof.
  intros k st d (H1 & H2 & H3 & H4 & H5 & H6 & H7 & H8).
  unfold db_integrity. conjuncts; try assumption.
  - now rewrite o_id_set_state.
  - apply Forall_impl with (2 := H5). intros e. now rewrite order_exists_set_state.
  - apply Forall_impl with (2 := H6). intros p. now rewrite order_exists_set_state.
Qed.

Lemma integrity_add_event_commit : forall oid ty payload d d',
  add_event oid ty payload d = Ok d' -> db_integrity d -> db_integrity (commit d').
Proof.
  intros oid ty payload d d' H (H1 & H2 & H3 & H4 & H5 & H6 & H7 & H8).
  unfold add_event in H. destruct oid as [k|]; [|discriminate H].
  destruct (existsb _ _) eqn:Hk; [|discriminate H].
  injection H as <-. unfold db_integrity. simpl. conjuncts; try assumption.
  - rewrite map_app. apply NoDup_snoc; [exact H3|]. simpl. intros Hin.
    apply in_map_iff in Hin. destruct Hin as (e & He & Hin).
    rewrite Forall_forall in H4. apply H4 in Hin. lia.
  - apply Forall_app. split.
    + apply Forall_impl with (2 := H4). intros e He. simpl. lia.
    + repeat constructor.
  - apply Forall_app. split; [exact H5|]. repeat constructor. exact Hk.
  - rewrite map_app. apply strictly_increasing_snoc; [exact H7|].
    apply Forall_map. exact H8.
  - apply Forall_app. split.
    + apply Forall_impl with (2 := H8). intros e He. lia.
    + repeat constructor.
Qed.

Lemma integrity_insert_payment : forall pid oid st amount d d' r,
  insert_payment_on_conflict_do_nothing pid oid st amount d = Ok (d', r) ->
  db_integrity d -> db_integrity d'.
Proof.
  intros pid oid st amount d d' r H Hd.
  unfold insert_payment_on_conflict_do_nothing in H.
  destruct (existsb _ (payments d)) eqn:Hp.
  { injection H as <- _. exact Hd. }
  destruct oid as [k|]; [|discriminate H].
  destruct (existsb _ (orders d)) eqn:Hk; [|discriminate H].
  injection H as <- _. destruct Hd as (H1 & H2 & H3 & H4 & H5 & H6 & H7 & H8).
  unfold db_integrity. simpl. conjuncts; try assumption.
  - rewrite map_app. apply NoDup_snoc; [exact H2|]. simpl. intros Hin.
    apply in_map_iff in Hin. destruct Hin as (p & He & Hin).
    assert (Ht : existsb (fun p => p_payment_id p =? pid) (payments d) = true).
    { apply existsb_exists. exists p. split; [exact Hin|]. now apply String.eqb_eq. }
    congruence.
  - apply Forall_app. split; [exact H6|]. repeat constructor. exact Hk.
Qed.

Ltac integrity :=
  first
    [ assumption
    | match goal with
      | He : add_event _ _ _ _ = Ok ?d2 |- db_integrity (commit ?d2) =>
        apply (integrity_add_event_commit _ _ _ _ _ He); integrity
      | |- db_integrity (set_order_state _ _ _) =>
        apply integrity_set_order_state; integrity
      | |- db_integrity (commit _) => apply integrity_commit; integrity
      | Hi : insert_payment_on_conflict_do_nothing _ _ _ _ _ = Ok (?d1, _)
        |- db_integrity ?d1 =>
        apply (integrity_insert_payment _ _ _ _ _ _ _ Hi); integrity
      end ].

Lemma run_operation_integrity : forall o d, db_integrity d -> db_integrity (run_operation o d).
Proof.
  intros o d Hd.
  assert (Hgen : forall (A : Type) (r : result A * DB),
             (forall a d', r = (a, d') -> db_integrity d') -> db_integrity (snd r)).
  { intros A [a d'] H. now apply (H a). }
  destruct o as [|k dr|order dr|order pid dr|order dr|order dr]; simpl;
    [exact Hd|apply Hgen; intros a d' H ..].
  - unfold order_received in H.
    destruct (flaky_call dr); [inversion H; subst; exact Hd|].
    destruct (session_get_order d (Some k)) eqn:Hk; [inversion H; subst; exact Hd|].
    assert (H1 : db_integrity (commit (add_order k "received" default_address d))).
    { apply integrity_commit, integrity_add_order; [|exact Hd].
      apply (find_none_existsb _ _ _ Hk). }
    destruct (add_event _ _ _ _) eqn:He; inversion H; subst; [integrity|exact H1].
  - unfold order_validated in H. destruct_matches_in H; inversion H; subst; integrity.
  - unfold payment_charged in H. destruct_matches_in H; inversion H; subst; integrity.
  - unfold package_prepared in H. destruct_matches_in H; inversion H; subst; integrity.
  - unfold carrier_dispatched in H. destruct_matches_in H; inversion H; subst; integrity.
Qed.

(** X10. The saga keeps the constraints of the schema and the order of
    time: from a database where order ids, payment ids and event ids are
    unique, event ids are below the counter, every event and every payment
    refers to an order that has a row, and the events are in strict time
    order and in the past, any events whatever lead to a database where all
    of this holds again. *)
Theorem saga_keeps_integrity :
  forall (s : Saga) (evs : list event),
    db_integrity (db s) -> db_integrity (db (exec s evs)).
Proof.
  intros s evs H. apply (exec_db_invariant db_integrity); [|exact H].
  intros o d. apply run_operation_integrity.
Qed.

Lemma saga_keeps_integrity_witness :
  db_integrity (db (saga_init empty_db))
  /\ db_integrity (db (exec (saga_init empty_db) happy_path)).
Proof.
  assert (H : db_integrity (db (saga_init empty_db)))
    by (unfold db_integrity; simpl; conjuncts; constructor).
  split; [exact H | apply (saga_keeps_integrity _ _ H)].
Defined.

(* ----------------------------------------------------------------- *)
(** ** Faults, signals and the course of a run *)

Lemma execute_activity_attempts : forall (A : Type) (act : draw -> DB -> result A * DB)
    n1 n2 ev d,
  fst (execute_activity act n1 ev d) = fst (execute_activity act n2 ev d).
Proof.
  intros A act n1 n2 ev d. unfold execute_activity.
  destruct ev as [o q|sg|dr|e|]; try reflexivity.
  destruct (act dr d) as [[a|e] d']; [reflexivity|].
  rewrite !retries_always. reflexivity.
Qed.

Lemma execute_activity_faulty : forall (A : Type) (act : draw -> DB -> result A * DB)
    n ev d,
  faulty ev = true ->
  (forall dr, flaky_call dr <> None -> exists e, act dr d = (Raise e, d)) ->
  execute_activity act n ev d = (Pending, d, S n).
Proof.
  intros A act n ev d Hf Hact. unfold execute_activity.
  destruct ev as [o q|sg|dr|e|]; try discriminate Hf.
  destruct (Hact dr) as (e & ->).
  { destruct dr; try discriminate Hf; discriminate. }
  now rewrite retries_always.
Qed.

Ltac activity_fault :=
  unfold receive_order_activity, validate_order_activity, charge_payment_activity,
    prepare_package_activity, dispatch_carrier_activity, handle_flaky_call,
    order_received, order_validated, payment_charged, package_prepared, carrier_dispatched;
  match goal with
  | H : flaky_call ?dr <> None |- _ =>
    destruct (flaky_call dr) as [?e|]; [eexists; reflexivity | contradiction]
  end.

(** Two sagas that differ at most in the number of failed attempts. *)
Lemma step_attempts : forall s1 s2 ev,
  pc s1 = pc s2 -> wf s1 = wf s2 -> db s1 = db s2 ->
  pc (step s1 ev) = pc (step s2 ev) /\ wf (step s1 ev) = wf (step s2 ev)
  /\ db (step s1 ev) = db (step s2 ev).
Proof.
  intros [p1 w1 d1 n1] [p w d n2] ev Hp Hw Hd. simpl in Hp, Hw, Hd. subst.
  unfold step. fields. destruct (closed p) eqn:Hc; [now conjuncts|].
  destruct ev as [o q|sg|dr|e|].
  2:{ now conjuncts. }
  all: unfold advance; fields.
  all: destruct p as [| | | | |pr child cpc|r|e']; try discriminate Hc;
    try (now conjuncts).
  all: try (unfold shipping_step; destruct cpc); try (now conjuncts).
  all: match goal with
       | |- context [execute_activity ?act _ ?ev ?d] =>
         pose proof (execute_activity_attempts _ act n1 n2 ev d) as Hfst;
         destruct (execute_activity act n1 ev d) as [[a1 x1] k1];
         destruct (execute_activity act n2 ev d) as [[a2 x2] k2]
       end; simpl in Hfst; injection Hfst as -> ->.
  all: destruct a2; fields; now conjuncts.
Qed.

Lemma step_well_suspended : forall s ev,
  well_suspended (pc s) = true -> well_suspended (pc (step s ev)) = true.
Proof.
  intros [p w d n] ev H. unfold step. fields.
  destruct (closed p) eqn:Hc; [exact H|].
  destruct ev as [o q|sg|dr|e|].
  2:{ exact H. }
  all: unfold advance; fields.
  all: destruct p as [| | | | |pr child cpc|r|e']; try discriminate Hc;
    try reflexivity.
  all: try (unfold shipping_step; destruct cpc; try discriminate H).
  all: try match goal with
       | |- context [execute_activity ?act ?k ?ev ?d] =>
         destruct (execute_activity act k ev d) as [[[?|?|] ?] ?]
       end.
  all: unfold after_receive, after_validate, after_review, after_charge, after_shipping,
         shipping_failed; fields.
  all: repeat match goal with
       | |- context [if ?b then _ else _] => destruct b; fields
       end.
  all: reflexivity.
Qed.

Lemma exec_well_suspended : forall evs s,
  well_suspended (pc s) = true -> well_suspended (pc (exec s evs)) = true.
Proof.
  induction evs as [|ev evs IH]; intros s H; [exact H|].
  rewrite exec_cons. now apply IH, step_well_suspended.
Qed.

Lemma step_faulty : forall s ev,
  well_suspended (pc s) = true ->
  faulty ev = true ->
  pc (step s ev) = pc s /\ wf (step s ev) = wf s /\ db (step s ev) = db s.
Proof.
  intros [p w d n] ev Hs Hf. unfold step. fields.
  destruct (closed p) eqn:Hc; [now conjuncts|].
  destruct ev as [o q|sg|dr|e|]; try discriminate Hf.
  assert (Hne : flaky_call dr <> None) by (destruct dr; try discriminate Hf; discriminate).
  unfold advance; fields.
  destruct p as [| | | | |pr child cpc|r|e']; try discriminate Hc; try (now conjuncts).
  all: try (unfold shipping_step; destruct cpc; try discriminate Hs).
  all: match goal with
       | |- context [execute_activity ?act ?k ?ev ?d] =>
         rewrite (execute_activity_faulty _ act k ev d Hf)
       end; try (now conjuncts).
  all: clear Hne; intros dr' Hdr'; activity_fault.
Qed.

(** X11. Injected faults are invisible in the outcome: a run with any number
    of attempts cut short by the fault hook, anywhere, ends at the same
    suspension point or result, with the same instance state and the same
    database, as the run without them. *)
Theorem faults_are_transparent :
  forall (s : Saga) (evs : list event),
    well_suspended (pc s) = true ->
    pc (exec s evs) = pc (exec s (without_faults evs))
    /\ wf (exec s evs) = wf (exec s (without_faults evs))
    /\ db (exec s evs) = db (exec s (without_faults evs)).
Proof.
  intros s evs Hs.
  assert (H : forall evs s1 s2,
             well_suspended (pc s1) = true ->
             pc s1 = pc s2 -> wf s1 = wf s2 -> db s1 = db s2 ->
             pc (exec s1 evs) = pc (exec s2 (without_faults evs))
             /\ wf (exec s1 evs) = wf (exec s2 (without_faults evs))
             /\ db (exec s1 evs) = db (exec s2 (without_faults evs))).
  { clear. induction evs as [|ev evs IH]; intros s1 s2 Hs Hp Hw Hd; [now conjuncts|].
    rewrite exec_cons. unfold without_faults. cbn [filter].
    fold (without_faults evs). destruct (faulty ev) eqn:Hf; cbn [negb].
    - destruct (step_faulty s1 ev Hs Hf) as (Fp & Fw & Fd).
      apply IH; [now apply step_well_suspended | congruence ..].
    - rewrite exec_cons. destruct (step_attempts s1 s2 ev Hp Hw Hd) as (Sp & Sw & Sd).
      apply IH; [now apply step_well_suspended | assumption ..]. }
  now apply H.
Qed.

Lemma faults_are_transparent_witness :
  well_suspended (pc (saga_init empty_db)) = true
  /\ pc (exec (saga_init empty_db)
               [Start "order-1" "payment-1"; Attempt Fails; Attempt Passes; Attempt Stalls])
     = pc (exec (saga_init empty_db)
                (without_faults
                   [Start "order-1" "payment-1"; Attempt Fails; Attempt Passes;
                    Attempt Stalls])).
Proof.
  split; [reflexivity|].
  apply (faults_are_transparent (saga_init empty_db)
           [Start "order-1" "payment-1"; Attempt Fails; Attempt Passes; Attempt Stalls]).
  reflexivity.
Defined.

(* ----------------------------------------------------------------- *)
(** ** One event for each invocation *)

Lemma add_event_shape : forall oid ty payload d d',
  add_event oid ty payload d = Ok d' ->
  exists k, oid = Some k
    /\ d' = {| orders := orders d; payments := payments d;
               events := events d ++ [ {| e_id := next_event_id d; e_order_id := k;
                                          e_type := ty; e_payload_json := payload;
                                          e_ts := clock d |} ];
               next_event_id := S (next_event_id d); clock := clock d |}.
Proof.
  intros oid ty payload d d' H. unfold add_event in H.
  destruct oid as [k|]; [|discriminate H].
  destruct (existsb _ _); [|discriminate H].
  injection H as <-. exists k. split; reflexivity.
Qed.

Lemma insert_payment_keeps : forall pid oid st amount d d' r,
  insert_payment_on_conflict_do_nothing pid oid st amount d = Ok (d', r) ->
  events d' = events d /\ next_event_id d' = next_event_id d /\ orders d' = orders d
  /\ clock d' = clock d.
Proof.
  intros pid oid st amount d d' r H. unfold insert_payment_on_conflict_do_nothing in H.
  destruct (existsb _ (payments d)); [injection H as <- _; now conjuncts|].
  destruct oid as [k|]; [|discriminate H].
  destruct (existsb _ _); [|discriminate H].
  injection H as <- _. now conjuncts.
Qed.

Lemma one_event_shape :
  forall (o : db_operation) (d : DB),
    events (run_operation o d) = events d
    \/ exists e, events (run_operation o d) = events d ++ [e]
                 /\ e_type e = operation_type o
                 /\ Some (e_order_id e) = operation_order o
                 /\ e_id e = next_event_id d.
Proof.
  intros o d.
  assert (Hgen : forall (A : Type) (r : result A * DB) (P : DB -> Prop),
             (forall a d', r = (a, d') -> P d') -> P (snd r)).
  { intros A [a d'] P H. now apply (H a). }
  destruct o as [|k dr|order dr|order pid dr|order dr|order dr]; simpl;
    [now left | apply Hgen; intros a d' H ..].
  - unfold order_received in H. destruct_matches_in H; inversion H; subst;
      try (now left).
    match goal with He : add_event _ _ _ _ = Ok _ |- _ =>
      apply add_event_shape in He; destruct He as (k' & Hk & ->) end.
    injection Hk as <-. right. eexists. split; [reflexivity|]. now conjuncts.
  - unfold order_validated in H. destruct_matches_in H; inversion H; subst;
      try (now left).
    match goal with He : add_event _ _ _ _ = Ok _ |- _ =>
      apply add_event_shape in He; destruct He as (k' & Hk & ->) end.
    right. eexists. split; [reflexivity|]. simpl. rewrite Hk. now conjuncts.
  - unfold payment_charged in H. destruct_matches_in H; inversion H; subst;
      try (now left).
    all: match goal with He : add_event _ _ _ _ = Ok _ |- _ =>
      apply add_event_shape in He; destruct He as (k' & Hk & ->) end.
    all: match goal with Hi : insert_payment_on_conflict_do_nothing _ _ _ _ _ = Ok _ |- _ =>
      apply insert_payment_keeps in Hi; destruct Hi as (Hi1 & Hi2 & Hi3 & Hi4) end.
    all: right; eexists; simpl; rewrite Hi1, Hi2, Hk; split; [reflexivity|]; now conjuncts.
  - unfold package_prepared in H. destruct_matches_in H; inversion H; subst;
      try (now left).
    match goal with He : add_event _ _ _ _ = Ok _ |- _ =>
      apply add_event_shape in He; destruct He as (k' & Hk & ->) end.
    right. eexists. split; [reflexivity|]. simpl. rewrite Hk. now conjuncts.
  - unfold carrier_dispatched in H. destruct_matches_in H; inversion H; subst;
      try (now left).
    match goal with He : add_event _ _ _ _ = Ok _ |- _ =>
      apply add_event_shape in He; destruct He as (k' & Hk & ->) end.
    right. eexists. split; [reflexivity|]. simpl. rewrite Hk. now conjuncts.
Qed.


(* ----------------------------------------------------------------- *)
(** ** Cancellation before and after the start of shipping *)

Ltac run_on :=
  unfold after_receive, after_validate, after_review, after_charge, after_shipping,
    shipping_failed;
  cbn [pc wf db attempt _current_step _is_cancelled _order_id _payment_id _order_data
       _shipping_address set_current_step set_order_data cancel_order update_address
       handle_signal run_failed run_returns suspend enter_run closed negb] in *.

Lemma shipping_events_operation : forall o d,
  operation_type o <> "package_prepared" ->
  operation_type o <> "carrier_dispatched" ->
  shipping_events (run_operation o d) = shipping_events d.
Proof.
  intros o d H1 H2. unfold shipping_events.
  destruct (one_event_shape o d) as [->|(e & -> & Ht & _)]; [reflexivity|].
  rewrite filter_app. simpl. rewrite Ht.
  destruct (operation_type o =? "package_prepared") eqn:E1;
    [apply String.eqb_eq in E1; contradiction|].
  destruct (operation_type o =? "carrier_dispatched") eqn:E2;
    [apply String.eqb_eq in E2; contradiction|].
  simpl. apply app_nil_r.
Qed.

Lemma step_cancelled_before_shipping : forall s ev,
  _is_cancelled (wf s) = true -> before_shipping (pc s) = true ->
  _is_cancelled (wf (step s ev)) = true /\ before_shipping (pc (step s ev)) = true
  /\ shipping_events (db (step s ev)) = shipping_events (db s).
Proof.
  intros s ev Hc Hb. split; [|split].
  3:{ rewrite step_db. apply shipping_events_operation;
      unfold awaited_operation; destruct ev; try discriminate;
      destruct (pc s) as [| | | | |pr child cpc|r|e']; try discriminate. }
  all: destruct s as [p [o q od a c ph] d n]; cbn in Hc, Hb; subst c.
  all: unfold step; fields; destruct (closed p) eqn:Hcl; [assumption || reflexivity|].
  all: destruct ev as [o' q'|sg|dr|e|].
  all: try (destruct sg; run_on; first [reflexivity | exact Hb]).
  all: unfold advance; fields.
  all: destruct p as [| | | | |pr child cpc|r|e']; try discriminate Hcl;
    try discriminate Hb; try reflexivity.
  all: try match goal with
       | |- context [execute_activity ?act ?k ?ev ?d] =>
         destruct (execute_activity act k ev d) as [[[?|?|] ?] ?]
       end.
  all: run_on.
  all: repeat match goal with
       | |- context [if ?b then _ else _] => destruct b; run_on
       end.
  all: reflexivity.
Qed.

(** X13. An order cancelled before shipping starts is never shipped: once
    the cancellation flag is set in a saga that has not yet started its
    child workflow, no events whatever make it start the child or complete,
    and no package_prepared or carrier_dispatched event is ever added to
    the database. *)
Theorem cancelled_order_is_never_shipped :
  forall (s : Saga) (evs : list event),
    _is_cancelled (wf s) = true ->
    before_shipping (pc s) = true ->
    before_shipping (pc (exec s evs)) = true
    /\ shipping_events (db (exec s evs)) = shipping_events (db s)
    /\ _is_cancelled (wf (exec s evs)) = true.
Proof.
  intros s evs. revert s.
  induction evs as [|ev evs IH]; intros s Hc Hb; [now conjuncts|].
  rewrite exec_cons.
  destruct (step_cancelled_before_shipping s ev Hc Hb) as (Hc' & Hb' & He).
  destruct (IH _ Hc' Hb') as (I1 & I2 & I3). conjuncts; congruence.
Qed.

Lemma cancelled_order_is_never_shipped_witness :
  _is_cancelled (wf cancelled_while_charging) = true
  /\ before_shipping (pc cancelled_while_charging) = true
  /\ before_shipping
       (pc (exec cancelled_while_charging [Attempt Passes; Attempt Passes; Attempt Passes]))
     = true.
Proof.
  assert (H1 : _is_cancelled (wf cancelled_while_charging) = true)
    by (vm_compute; reflexivity).
  assert (H2 : before_shipping (pc cancelled_while_charging) = true)
    by (vm_compute; reflexivity).
  split; [exact H1|]. split; [exact H2|].
  apply (cancelled_order_is_never_shipped cancelled_while_charging
           [Attempt Passes; Attempt Passes; Attempt Passes] H1 H2).
Defined.

Lemma step_after_shipping_started : forall s1 s2 ev,
  shipping_started (pc s1) = true ->
  pc s1 = pc s2 -> db s1 = db s2 -> _order_id (wf s1) = _order_id (wf s2) ->
  shipping_started (pc (step s1 ev)) = true
  /\ pc (step s1 ev) = pc (step s2 ev) /\ db (step s1 ev) = db (step s2 ev)
  /\ _order_id (wf (step s1 ev)) = _order_id (wf (step s2 ev)).
Proof.
  intros [p1 [o1 q1 od1 a1 c1 ph1] d1 n1] [p [o q od a c ph] d n2] ev Hs Hp Hd Ho.
  cbn in Hs, Hp, Hd, Ho. subst.
  unfold step. fields. destruct (closed p) eqn:Hc; [now conjuncts|].
  destruct ev as [o' q'|sg|dr|e|].
  2:{ destruct sg; now conjuncts. }
  all: unfold advance; fields.
  all: destruct p as [| | | | |pr child cpc|r|e']; try discriminate Hc;
    try discriminate Hs.
  all: unfold shipping_step; destruct cpc; run_on; try (now conjuncts).
  all: match goal with
       | |- context [execute_activity ?act _ ?ev ?d] =>
         pose proof (execute_activity_attempts _ act n1 n2 ev d) as Hfst;
         destruct (execute_activity act n1 ev d) as [[x1 y1] k1];
         destruct (execute_activity act n2 ev d) as [[x2 y2] k2]
       end; simpl in Hfst; injection Hfst as -> ->.
  all: destruct x2; run_on; now conjuncts.
Qed.

Lemma step_signal_after_shipping_started : forall s sg,
  pc (step s (Signal sg)) = pc s /\ db (step s (Signal sg)) = db s
  /\ _order_id (wf (step s (Signal sg))) = _order_id (wf s).
Proof.
  intros [p [o q od a c ph] d n] sg. unfold step. fields.
  destruct (closed p); [now conjuncts|]. destruct sg; now conjuncts.
Qed.

(** X14. A signal that arrives once the child workflow has been started
    changes nothing in the outcome: the saga returns or raises what it
    would without the signal and writes the same database.  A
    cancellation sent during shipping is therefore ignored; the saga never
    returns cancelled from there. *)
Theorem signals_during_shipping_are_ignored :
  forall (s : Saga) (evs : list event),
    shipping_started (pc s) = true ->
    pc (exec s evs) = pc (exec s (without_signals evs))
    /\ db (exec s evs) = db (exec s (without_signals evs))
    /\ (forall name, pc (exec s evs) <> Returned (RCancelled name)).
Proof.
  intros s evs Hs.
  assert (H : forall evs s1 s2,
             shipping_started (pc s1) = true ->
             pc s1 = pc s2 -> db s1 = db s2 -> _order_id (wf s1) = _order_id (wf s2) ->
             shipping_started (pc (exec s1 evs)) = true
             /\ pc (exec s1 evs) = pc (exec s2 (without_signals evs))
             /\ db (exec s1 evs) = db (exec s2 (without_signals evs))).
  { clear. induction evs as [|ev evs IH]; intros s1 s2 Hs Hp Hd Ho; [now conjuncts|].
    rewrite exec_cons. unfold without_signals. cbn [filter].
    fold (without_signals evs). destruct (is_signal ev) eqn:Hf; cbn [negb].
    - destruct ev as [| sg | | |]; try discriminate Hf.
      destruct (step_signal_after_shipping_started s1 sg) as (Fp & Fd & Fo).
      apply IH; congruence.
    - rewrite exec_cons.
      destruct (step_after_shipping_started s1 s2 ev Hs Hp Hd Ho) as (Ss & Sp & Sd & So).
      now apply IH. }
  destruct (H evs s s Hs eq_refl eq_refl eq_refl) as (H1 & H2 & H3).
  conjuncts; [exact H2 | exact H3 |].
  intros name Hn. rewrite Hn in H1. discriminate H1.
Qed.

Lemma signals_during_shipping_are_ignored_witness :
  shipping_started (pc awaiting_dispatch) = true
  /\ pc (exec awaiting_dispatch [Signal CancelOrder; Attempt Passes])
     = pc (exec awaiting_dispatch (without_signals [Signal CancelOrder; Attempt Passes])).
Proof.
  assert (H : shipping_started (pc awaiting_dispatch) = true) by (vm_compute; reflexivity).
  split; [exact H|].
  apply (signals_during_shipping_are_ignored awaiting_dispatch
           [Signal CancelOrder; Attempt Passes] H).
Defined.

(* ----------------------------------------------------------------- *)
(** ** The phase of a run without signals *)

Lemma step_own_phase : forall s ev,
  is_signal ev = false ->
  own_phase (pc s) = Some (_current_step (wf s)) -> _is_cancelled (wf s) = false ->
  own_phase (pc (step s ev)) = Some (_current_step (wf (step s ev)))
  /\ _is_cancelled (wf (step s ev)) = false.
Proof.
  intros [p [o q od a c ph] d n] ev Hev Hp Hc. cbn in Hp, Hc. subst c.
  unfold step. fields. destruct (closed p) eqn:Hcl; [now split|].
  destruct ev as [o' q'|sg|dr|e|]; try discriminate Hev.
  all: unfold advance; fields.
  all: destruct p as [| | | | |pr child cpc|r|e']; try discriminate Hcl;
    try (now split).
  all: try (unfold shipping_step; destruct cpc).
  all: try match goal with
       | |- context [execute_activity ?act ?k ?ev ?d] =>
         destruct (execute_activity act k ev d) as [[[?|?|] ?] ?]
       end.
  all: run_on; try (now split).
  all: repeat match goal with
       | |- context [if ?b then _ else _] => destruct b; run_on
       end.
  all: now split.
Qed.

(** X15. While no signal is delivered, the query shows exactly the phase
    that [run] wrote last: the phase of the step the saga awaits,
    "completed" after a completed run and "failed" after a failed one;
    the cancellation flag is unset and the run never returns cancelled. *)
Theorem phase_follows_run_without_signals :
  forall (db0 : DB) (evs : list event),
    forallb (fun ev => negb (is_signal ev)) evs = true ->
    let s := exec (saga_init db0) evs in
    own_phase (pc s) = Some (st_current_step (get_workflow_status s))
    /\ st_is_cancelled (get_workflow_status s) = false
    /\ (forall name, pc s <> Returned (RCancelled name)).
Proof.
  intros db0 evs Hevs.
  assert (H : forall evs s,
             forallb (fun ev => negb (is_signal ev)) evs = true ->
             own_phase (pc s) = Some (_current_step (wf s)) ->
             _is_cancelled (wf s) = false ->
             own_phase (pc (exec s evs)) = Some (_current_step (wf (exec s evs)))
             /\ _is_cancelled (wf (exec s evs)) = false).
  { clear. induction evs as [|ev evs IH]; intros s Hevs Hp Hc; [now split|].
    rewrite exec_cons. cbn [forallb] in Hevs. apply andb_prop in Hevs.
    destruct Hevs as [Hev Hevs]. apply negb_true_iff in Hev.
    destruct (step_own_phase s ev Hev Hp Hc) as [Hp' Hc']. now apply IH. }
  destruct (H evs (saga_init db0) Hevs eq_refl eq_refl) as [H1 H2].
  cbn zeta. unfold get_workflow_status, get_status. cbn [st_current_step st_is_cancelled].
  conjuncts; [exact H1 | exact H2 |].
  intros name Hn. rewrite Hn in H1. discriminate H1.
Qed.

Lemma phase_follows_run_without_signals_witness :
  forallb (fun ev => negb (is_signal ev)) happy_path = true
  /\ own_phase (pc (exec (saga_init empty_db) happy_path))
     = Some (st_current_step (get_workflow_status (exec (saga_init empty_db) happy_path))).
Proof.
  assert (H : forallb (fun ev => negb (is_signal ev)) happy_path = true)
    by (vm_compute; reflexivity).
  split; [exact H|].
  apply (phase_follows_run_without_signals empty_db happy_path H).
Defined.

(* ----------------------------------------------------------------- *)
(** ** How a run fails and how it is cancelled *)

Lemma payment_result_status : forall order pid dr d v d',
  payment_charged order pid dr d = (Ok v, d') ->
  pr_status v = "charged"
  \/ exists row, session_get_payment d pid = Some row /\ p_status row = pr_status v
                 /\ d' = d.
Proof.
  intros order pid dr d v d' H. unfold payment_charged in H.
  destruct (flaky_call dr); [discriminate H|].
  destruct (session_get_payment d pid) as [row|] eqn:Hget.
  { injection H as <- <-. right. exists row. now conjuncts. }
  destruct (insert_payment_on_conflict_do_nothing _ _ _ _ _) as [[d1 ret]|e] eqn:Hins;
    [|discriminate H].
  destruct (negb (scalar_truthy ret)).
  - unfold insert_payment_on_conflict_do_nothing in Hins.
    unfold session_get_payment in Hget.
    rewrite (find_none_existsb _ _ _ Hget) in Hins.
    destruct (od_order_id order) as [k|]; [|discriminate Hins].
    destruct (existsb _ (orders d)); [|discriminate Hins].
    injection Hins as <- _. unfold session_get_payment, set_payments in H. cbn [payments] in H.
    rewrite (find_app_last _ _ _ _ Hget) in H. cbn [p_payment_id] in H.
    destruct (pid =? pid); [|discriminate H].
    injection H as <- _. now left.
  - destruct (add_event _ _ _ _); [|discriminate H]. injection H as <- _. now left.
Qed.

(** Each way in which one event makes [run] raise. *)
Lemma step_raises : forall s ev e,
  closed (pc s) = false -> well_suspended (pc s) = true ->
  pc (step s ev) = Raised e ->
  _current_step (wf (step s ev)) = "failed"
  /\ db (step s ev) = db s
  /\ ((ev = GiveUp e /\ before_shipping (pc s) = true)
      \/ (exists cause, ev = GiveUp cause /\ e = shipping_error cause
                        /\ before_shipping (pc s) = false)
      \/ (e = RuntimeError "Payment failed" /\ pc s = ChargePayment
          /\ exists dr row, ev = Attempt dr
               /\ session_get_payment (db s) (_payment_id (wf s)) = Some row
               /\ p_status row <> "charged")).
Proof.
  intros [p [o q od a c ph] d n] ev e Hcl Hws. unfold step. fields. rewrite Hcl.
  destruct ev as [o' q'|sg|dr|e0|].
  2:{ fields. intros H. rewrite H in Hcl. discriminate Hcl. }
  all: unfold advance; fields.
  all: destruct p as [| | | | |pr child cpc|r|e']; try discriminate Hcl;
    try (fields; discriminate).
  all: try (unfold shipping_step; destruct cpc; try discriminate Hws).
  all: try match goal with
       | |- context [execute_activity ?act ?k ?ev ?d] =>
         destruct (execute_activity act k ev d) as [[[x|x|] y] z] eqn:Hx
       end.
  all: try (apply execute_activity_rejected in Hx; destruct Hx as [Hev ->];
            try discriminate Hev; try (injection Hev as <-)).
  all: run_on; try discriminate.
  all: try (intros H; injection H as <-; conjuncts; try reflexivity;
            first [ left; split; reflexivity
                  | right; left; exists e0; conjuncts; reflexivity ]).
  all: repeat match goal with
       | |- context [if ?b then _ else _] => destruct b eqn:?; run_on
       end; try discriminate.
  (* the validation answered False: it never does *)
  - unfold execute_activity, validate_order_activity, handle_flaky_call in Hx.
    destruct (order_validated od dr d) as [[v|e1] d1] eqn:Hv; [|discriminate Hx].
    injection Hx as <- <- _.
    unfold order_validated in Hv. destruct_matches_in Hv; inversion Hv; subst;
      discriminate.
  (* the payment is not charged *)
  - intros H. injection H as <-.
    unfold execute_activity, charge_payment_activity, handle_flaky_call in Hx.
    destruct (payment_charged od q dr d) as [[v|e1] d1] eqn:Hv; [|discriminate Hx].
    injection Hx as <- <- _.
    apply payment_result_status in Hv.
    match goal with Hs : negb (pr_status _ =? "charged") = true |- _ =>
      apply negb_true_iff, String.eqb_neq in Hs; rename Hs into Hne end.
    destruct Hv as [Hv|(row & Hrow & Hst & ->)]; [contradiction|].
    conjuncts; try reflexivity. right. right. conjuncts; try reflexivity.
    exists dr, row. conjuncts; [reflexivity | exact Hrow | congruence].
Qed.



Lemma payments_operation : forall o d, all_charged d -> all_charged (run_operation o d).
Proof.
  intros o d Hd.
  assert (Hgen : forall (A : Type) (r : result A * DB),
             (forall a d', r = (a, d') -> all_charged d') -> all_charged (snd r)).
  { intros A [a d'] H. now apply (H a). }
  destruct o as [|k dr|order dr|order pid dr|order dr|order dr]; simpl;
    [exact Hd|apply Hgen; intros a d' H ..].
  3:{ apply payment_charged_effect in H.
      destruct H as [->|(_ & row & _ & Hst & _ & Hp & _)]; [exact Hd|].
      unfold all_charged. rewrite Hp. apply Forall_app. split; [exact Hd|].
      now repeat constructor. }
  - unfold order_received in H. destruct_matches_in H; inversion H; subst;
      try exact Hd;
      repeat match goal with He : add_event _ _ _ _ = Ok _ |- _ =>
        apply add_event_shape in He; destruct He as (k' & Hk & ->) end; exact Hd.
  - unfold order_validated in H. destruct_matches_in H; inversion H; subst;
      try exact Hd;
      repeat match goal with He : add_event _ _ _ _ = Ok _ |- _ =>
        apply add_event_shape in He; destruct He as (k' & Hk & ->) end; exact Hd.
  - unfold package_prepared in H. destruct_matches_in H; inversion H; subst;
      try exact Hd;
      repeat match goal with He : add_event _ _ _ _ = Ok _ |- _ =>
        apply add_event_shape in He; destruct He as (k' & Hk & ->) end; exact Hd.
  - unfold carrier_dispatched in H. destruct_matches_in H; inversion H; subst;
      try exact Hd;
      repeat match goal with He : add_event _ _ _ _ = Ok _ |- _ =>
        apply add_event_shape in He; destruct He as (k' & Hk & ->) end; exact Hd.
Qed.

Lemma step_never_fails : forall s ev,
  not_given_up ev = true ->
  all_charged (db s) -> well_suspended (pc s) = true ->
  (forall e, pc s <> Raised e) ->
  forall e, pc (step s ev) <> Raised e.
Proof.
  intros s ev Hev Hd Hws Hp e H.
  destruct (closed (pc s)) eqn:Hcl.
  { rewrite step_closed in H by exact Hcl. now apply (Hp e). }
  destruct (step_raises s ev e Hcl Hws H) as (_ & _ & [[-> _]|[(c & -> & _)|Hpay]]);
    try discriminate Hev.
  destruct Hpay as (_ & _ & dr & row & _ & Hrow & Hst).
  unfold session_get_payment in Hrow. apply find_some in Hrow. destruct Hrow as [Hin _].
  unfold all_charged in Hd. rewrite Forall_forall in Hd. now apply Hst, Hd.
Qed.

(** X17. The saga does not fail by itself.  On a database whose stored
    payments are all charged, as every payment written by this code is, no
    sequence of attempts, signals, timers and starts makes [run] raise:
    only a step given up by the executor does. *)
Theorem saga_fails_only_when_given_up :
  forall (db0 : DB) (evs : list event) (e : exn),
    all_charged db0 ->
    forallb not_given_up evs = true ->
    pc (exec (saga_init db0) evs) <> Raised e.
Proof.
  intros db0 evs e Hd Hevs.
  assert (H : forall evs s,
             forallb not_given_up evs = true ->
             all_charged (db s) -> well_suspended (pc s) = true ->
             (forall e, pc s <> Raised e) ->
             forall e, pc (exec s evs) <> Raised e).
  { clear. induction evs as [|ev evs IH]; intros s Hevs Hd Hws Hp; [exact Hp|].
    rewrite exec_cons. cbn [forallb] in Hevs. apply andb_prop in Hevs.
    destruct Hevs as [Hev Hevs]. apply IH; [exact Hevs | | |].
    - rewrite step_db. now apply payments_operation.
    - now apply step_well_suspended.
    - now apply step_never_fails. }
  apply H; [exact Hevs | exact Hd | reflexivity | discriminate].
Qed.

Lemma saga_fails_only_when_given_up_witness :
  all_charged empty_db
  /\ forallb not_given_up happy_path = true
  /\ pc (exec (saga_init empty_db) happy_path) <> Raised CancelledError.
Proof.
  assert (H1 : all_charged empty_db) by (unfold all_charged; simpl; constructor).
  assert (H2 : forallb not_given_up happy_path = true) by (vm_compute; reflexivity).
  split; [exact H1|]. split; [exact H2|].
  apply (saga_fails_only_when_given_up empty_db happy_path CancelledError H1 H2).
Defined.

Lemma step_cancelled_name : forall s ev name,
  closed (pc s) = false ->
  pc (step s ev) = Returned (RCancelled name) ->
  In name cancellation_steps /\ _is_cancelled (wf (step s ev)) = true.
Proof.
  intros s ev name Hcl H.
  destruct (cancelled_only_at_checkpoint s ev name Hcl H) as [Hc Hk]. split.
  - unfold checkpoint_after in Hk.
    destruct_matches_in Hk; inversion Hk; unfold cancellation_steps; simpl; tauto.
  - destruct s as [p [o q od a c ph] d n]. cbn in Hc. subst c.
    revert H. unfold step. fields. rewrite Hcl.
    destruct ev as [o' q'|sg|dr|e0|].
    2:{ fields. intros H. rewrite H in Hcl. discriminate Hcl. }
    all: unfold advance; fields.
    all: destruct p as [| | | | |pr child cpc|r|e']; try discriminate Hcl;
      try (fields; discriminate).
    all: try (unfold shipping_step; destruct cpc).
    all: try match goal with
         | |- context [execute_activity ?act ?k ?ev ?d] =>
           destruct (execute_activity act k ev d) as [[[x|x|] y] z] eqn:Hx
         end.
    all: run_on; try discriminate; try reflexivity.
    all: repeat match goal with
         | |- context [if ?b then _ else _] => destruct b eqn:?; run_on
         end; try discriminate; reflexivity.
Qed.

(** X18. A cancelled run reports one of four steps.  Whenever a saga that
    was still running returns cancelled, the step it names is
    order_received, order_validated, manual_review or payment_charged, and
    the cancellation flag is set: the answer with step "shipping_started"
    is never given. *)
Theorem cancelled_run_names_a_checked_step :
  forall (s : Saga) (evs : list event) (name : string),
    closed (pc s) = false ->
    pc (exec s evs) = Returned (RCancelled name) ->
    In name cancellation_steps
    /\ name <> "shipping_started"
    /\ st_is_cancelled (get_workflow_status (exec s evs)) = true.
Proof.
  intros s evs name Hcl H.
  assert (Hgen : forall evs s,
             closed (pc s) = false ->
             pc (exec s evs) = Returned (RCancelled name) ->
             In name cancellation_steps /\ _is_cancelled (wf (exec s evs)) = true).
  { clear. induction evs as [|ev evs IH]; intros s Hcl H.
    - simpl in H. rewrite H in Hcl. discriminate Hcl.
    - rewrite exec_cons in *. destruct (closed (pc (step s ev))) eqn:Hcl'.
      + rewrite exec_closed in * by exact Hcl'. now apply step_cancelled_name.
      + now apply IH. }
  destruct (Hgen evs s Hcl H) as [H1 H2]. conjuncts; [exact H1 | | exact H2].
  intros ->. unfold cancellation_steps in H1. simpl in H1.
  repeat destruct H1 as [H1|H1]; try discriminate H1. exact H1.
Qed.

Lemma cancelled_run_names_a_checked_step_witness :
  closed (pc cancelled_while_charging) = false
  /\ pc (exec cancelled_while_charging [Attempt Passes]) = Returned (RCancelled "payment_charged")
  /\ In "payment_charged" cancellation_steps.
Proof.
  assert (H1 : closed (pc cancelled_while_charging) = false) by (vm_compute; reflexivity).
  assert (H2 : pc (exec cancelled_while_charging [Attempt Passes])
               = Returned (RCancelled "payment_charged")) by (vm_compute; reflexivity).
  split; [exact H1|]. split; [exact H2|].
  apply (cancelled_run_names_a_checked_step cancelled_while_charging [Attempt Passes]
           "payment_charged" H1 H2).
Defined.

(* ----------------------------------------------------------------- *)
(** ** [ShippingWorkflow] run on its own *)

Lemma shipping_run_exec_app : forall evs1 evs2 r,
  shipping_run_exec r (evs1 ++ evs2) = shipping_run_exec (shipping_run_exec r evs1) evs2.
Proof. intros evs1 evs2 r. unfold shipping_run_exec. apply fold_left_app. Qed.

Lemma shipping_run_step_faulty : forall r ev,
  faulty ev = true ->
  sh_pc (shipping_run_step r ev) = sh_pc r /\ sh_wf (shipping_run_step r ev) = sh_wf r
  /\ sh_db (shipping_run_step r ev) = sh_db r.
Proof.
  intros [cpc c d n] ev Hf. unfold shipping_run_step, shipping_step.
  cbn [sh_pc sh_wf sh_db sh_attempt].
  destruct cpc as [|p|res|e]; try (now conjuncts).
  all: match goal with
       | |- context [execute_activity ?act ?k ?ev ?d] =>
         rewrite (execute_activity_faulty _ act k ev d Hf)
       end; [now conjuncts|].
  all: intros dr' Hdr'; activity_fault.
Qed.

Lemma shipping_run_faulty : forall evs r,
  forallb faulty evs = true ->
  sh_pc (shipping_run_exec r evs) = sh_pc r /\ sh_wf (shipping_run_exec r evs) = sh_wf r
  /\ sh_db (shipping_run_exec r evs) = sh_db r.
Proof.
  induction evs as [|ev evs IH]; intros r H; [now conjuncts|].
  cbn [forallb] in H. apply andb_prop in H. destruct H as [Hev Hevs].
  change (shipping_run_exec r (ev :: evs))
    with (shipping_run_exec (shipping_run_step r ev) evs).
  destruct (IH (shipping_run_step r ev) Hevs) as (I1 & I2 & I3).
  destruct (shipping_run_step_faulty r ev Hev) as (S1 & S2 & S3).
  conjuncts; congruence.
Qed.

Lemma select_event_extends : forall oid ty d d',
  (exists l, events d' = events d ++ l) ->
  select_event oid ty d = true -> select_event oid ty d' = true.
Proof.
  intros oid ty d d' [l Hl] H. unfold select_event in *. destruct oid as [k|]; [|exact H].
  now rewrite Hl, existsb_app, H.
Qed.

(** One of the two shipping operations on an order that has a row. *)
Lemma shipping_operation_known : forall (ty status answer : string) order k d,
  od_order_id order = Some k -> order_exists k d = true ->
  let op : OrderData -> draw -> DB -> result string * DB :=
    fun (order : OrderData) (dr : draw) (db0 : DB) =>
       match flaky_call dr with
       | Some e => (Raise e, db0)
       | None =>
         if select_event (od_order_id order) ty db0 then (Ok answer, db0)
         else match add_event (od_order_id order) ty
                      [("order_id", json_of_id (od_order_id order));
                       ("status", JStr status)] db0 with
              | Raise e => (Raise e, db0)
              | Ok db1 => (Ok answer, commit db1)
              end
       end in
  exists d1, op order Passes d = (Ok answer, d1)
    /\ select_event (Some k) ty d1 = true
    /\ orders d1 = orders d
    /\ (exists l, events d1 = events d ++ l)
    /\ op order Passes d1 = (Ok answer, d1).
Proof.
  intros ty status answer order k d Hk Hex op.
  pose proof (records_once_shape ty status answer order d) as H.
  fold op in H. unfold records_once, order_known in H. rewrite Hk, Hex in H.
  destruct (select_event (Some k) ty d) eqn:Hsel.
  - exists d. conjuncts; try assumption; try reflexivity. exists []. now rewrite app_nil_r.
  - destruct H as (k' & d1 & Hk' & Hop & Hev & Hor & _ & Hsel1 & Hrep).
    exists d1. conjuncts; try assumption. eexists. exact Hev.
Qed.

(** X19. The child workflow run on its own for an order that has a row
    ships it: however many attempts of either step are cut short by the
    fault hook, the passing attempts make it return status "shipped" with
    "Package ready" and "Dispatched"; the order then has both shipping
    events, the failure flag is unset, and a second run of the child on the
    database it left returns the same and writes nothing. *)
Theorem shipping_workflow_ships :
  forall (order : OrderData) (k : string) (d : DB) (faults1 faults2 : list event),
    od_order_id order = Some k ->
    order_exists k d = true ->
    forallb faulty faults1 = true ->
    forallb faulty faults2 = true ->
    let r := shipping_run_exec (shipping_run_start order d)
                               (shipping_attempts faults1 faults2) in
    sh_pc r = ShReturned shipped
    /\ select_event (Some k) "package_prepared" (sh_db r) = true
    /\ select_event (Some k) "carrier_dispatched" (sh_db r) = true
    /\ _dispatch_failed (sh_wf r) = false
    /\ shipping_run_exec (shipping_run_start order (sh_db r))
                         [Attempt Passes; Attempt Passes]
       = {| sh_pc := ShReturned shipped; sh_wf := ShippingWorkflow_start order;
            sh_db := sh_db r; sh_attempt := 0 |}.
Proof.
  intros order k d faults1 faults2 Hk Hex Hf1 Hf2.
  destruct (shipping_operation_known "package_prepared" "prepared" "Package ready"
              order k d Hk Hex) as (d1 & Hp & Hsel1 & Hor1 & Hev1 & Hp').
  assert (Hex1 : order_exists k d1 = true) by (unfold order_exists; now rewrite Hor1).
  destruct (shipping_operation_known "carrier_dispatched" "dispatched" "Dispatched"
              order k d1 Hk Hex1) as (d2 & Hc & Hsel2 & Hor2 & Hev2 & Hc').
  change (package_prepared order Passes d = (Ok "Package ready", d1)) in Hp.
  change (package_prepared order Passes d1 = (Ok "Package ready", d1)) in Hp'.
  change (carrier_dispatched order Passes d1 = (Ok "Dispatched", d2)) in Hc.
  change (carrier_dispatched order Passes d2 = (Ok "Dispatched", d2)) in Hc'.
  assert (Hsel12 : select_event (Some k) "package_prepared" d2 = true)
    by (apply (select_event_extends _ _ d1 d2 Hev2 Hsel1)).
  assert (Hp2 : package_prepared order Passes d2 = (Ok "Package ready", d2)).
  { unfold package_prepared. simpl flaky_call. cbv iota. now rewrite Hk, Hsel12. }
  assert (Hrun : forall r0 f1 f2,
             forallb faulty f1 = true -> forallb faulty f2 = true ->
             sh_pc r0 = PreparePackage -> sh_wf r0 = ShippingWorkflow_start order ->
             forall x y,
             package_prepared order Passes (sh_db r0) = (Ok "Package ready", x) ->
             carrier_dispatched order Passes x = (Ok "Dispatched", y) ->
             shipping_run_exec r0 (shipping_attempts f1 f2)
             = {| sh_pc := ShReturned shipped; sh_wf := ShippingWorkflow_start order;
                  sh_db := y; sh_attempt := 0 |}).
  { clear. intros r0 f1 f2 Hf1 Hf2 Hpc Hwf x y Hx Hy. unfold shipping_attempts.
    rewrite shipping_run_exec_app.
    destruct (shipping_run_faulty f1 r0 Hf1) as (A1 & A2 & A3).
    set (r1 := shipping_run_exec r0 f1) in *.
    change (shipping_run_exec r1 (Attempt Passes :: f2 ++ [Attempt Passes]))
      with (shipping_run_exec (shipping_run_step r1 (Attempt Passes))
                              (f2 ++ [Attempt Passes])).
    assert (B : shipping_run_step r1 (Attempt Passes)
                = {| sh_pc := DispatchCarrier "Package ready";
                     sh_wf := ShippingWorkflow_start order; sh_db := x;
                     sh_attempt := 0 |}).
    { unfold shipping_run_step, shipping_step. rewrite A1, A2, A3, Hpc, Hwf.
      unfold execute_activity, prepare_package_activity, handle_flaky_call.
      cbn [sh_order_data ShippingWorkflow_start]. rewrite Hx. reflexivity. }
    rewrite B. rewrite shipping_run_exec_app.
    destruct (shipping_run_faulty f2
                {| sh_pc := DispatchCarrier "Package ready";
                   sh_wf := ShippingWorkflow_start order; sh_db := x;
                   sh_attempt := 0 |} Hf2) as (C1 & C2 & C3).
    cbn [sh_pc sh_wf sh_db] in C1, C2, C3.
    set (r2 := shipping_run_exec _ f2) in *.
    change (shipping_run_exec r2 [Attempt Passes])
      with (shipping_run_step r2 (Attempt Passes)).
    unfold shipping_run_step, shipping_step. rewrite C1, C2, C3.
    unfold execute_activity, dispatch_carrier_activity, handle_flaky_call.
    cbn [sh_order_data ShippingWorkflow_start]. rewrite Hy. reflexivity. }
  cbn zeta.
  rewrite (Hrun (shipping_run_start order d) faults1 faults2 Hf1 Hf2 eq_refl eq_refl
                d1 d2 Hp Hc).
  cbn [sh_pc sh_db sh_wf ShippingWorkflow_start _dispatch_failed].
  conjuncts; try reflexivity; try assumption.
  exact (Hrun (shipping_run_start order d2) [] [] eq_refl eq_refl eq_refl eq_refl
              d2 d2 Hp2 Hc').
Qed.

Lemma shipping_workflow_ships_witness :
  od_order_id (received_order "order-1") = Some "order-1"
  /\ order_exists "order-1" db_with_order = true
  /\ sh_pc (shipping_run_exec (shipping_run_start (received_order "order-1") db_with_order)
              (shipping_attempts [Attempt Fails] [Attempt Stalls; Attempt Fails]))
     = ShReturned shipped.
Proof.
  assert (H1 : od_order_id (received_order "order-1") = Some "order-1") by reflexivity.
  assert (H2 : order_exists "order-1" db_with_order = true) by (vm_compute; reflexivity).
  assert (H3 : forallb faulty [Attempt Fails] = true) by reflexivity.
  assert (H4 : forallb faulty [Attempt Stalls; Attempt Fails] = true) by reflexivity.
  split; [exact H1|]. split; [exact H2|].
  apply (shipping_workflow_ships (received_order "order-1") "order-1" db_with_order
           [Attempt Fails] [Attempt Stalls; Attempt Fails] H1 H2 H3 H4).
Defined.

(** X20. The child workflow run on its own for an order that has no row
    never ends: every attempt of the prepare step, passing the fault hook
    or not, raises and is retried, so that after any number of attempts the
    child still awaits the prepare step, has written nothing, has counted
    every attempt as failed and has not reached its [except] clause. *)
Theorem shipping_workflow_retries_unknown_order :
  forall (order : OrderData) (d : DB) (draws : list draw),
    order_known order d = false ->
    select_event (od_order_id order) "package_prepared" d = false ->
    let r := shipping_run_exec (shipping_run_start order d) (map Attempt draws) in
    sh_pc r = PreparePackage
    /\ sh_db r = d
    /\ sh_attempt r = length draws
    /\ _dispatch_failed (sh_wf r) = false.
Proof.
  intros order d draws Hk Hsel.
  assert (Hop : forall dr, exists e, package_prepared order dr d = (Raise e, d)).
  { intros dr. unfold package_prepared. destruct (flaky_call dr) as [e|]; [now exists e|].
    rewrite Hsel. unfold order_known in Hk. unfold add_event.
    destruct (od_order_id order) as [k|]; [|eexists; reflexivity].
    unfold order_exists in Hk. rewrite Hk. eexists. reflexivity. }
  assert (H : forall draws r0,
             sh_pc r0 = PreparePackage -> sh_wf r0 = ShippingWorkflow_start order ->
             sh_db r0 = d ->
             sh_pc (shipping_run_exec r0 (map Attempt draws)) = PreparePackage
             /\ sh_db (shipping_run_exec r0 (map Attempt draws)) = d
             /\ sh_attempt (shipping_run_exec r0 (map Attempt draws))
                = sh_attempt r0 + length draws
             /\ _dispatch_failed (sh_wf (shipping_run_exec r0 (map Attempt draws))) = false).
  { clear - Hop. induction draws as [|dr draws IH]; intros r0 Hpc Hwf Hdb.
    - cbn. rewrite Hwf, Nat.add_0_r. now conjuncts.
    - change (shipping_run_exec r0 (map Attempt (dr :: draws)))
        with (shipping_run_exec (shipping_run_step r0 (Attempt dr)) (map Attempt draws)).
      destruct (Hop dr) as (e & He).
      assert (B : shipping_run_step r0 (Attempt dr)
                  = {| sh_pc := PreparePackage; sh_wf := ShippingWorkflow_start order;
                       sh_db := d; sh_attempt := S (sh_attempt r0) |}).
      { unfold shipping_run_step, shipping_step. rewrite Hpc, Hwf, Hdb.
        unfold execute_activity, prepare_package_activity, handle_flaky_call.
        cbn [sh_order_data ShippingWorkflow_start]. rewrite He, retries_always.
        reflexivity. }
      rewrite B.
      destruct (IH {| sh_pc := PreparePackage; sh_wf := ShippingWorkflow_start order;
                      sh_db := d; sh_attempt := S (sh_attempt r0) |}
                   eq_refl eq_refl eq_refl) as (I1 & I2 & I3 & I4).
      cbn [sh_attempt length] in *. conjuncts; try assumption. lia. }
  exact (H draws (shipping_run_start order d) eq_refl eq_refl eq_refl).
Qed.

Lemma shipping_workflow_retries_unknown_order_witness :
  order_known (received_order "order-9") empty_db = false
  /\ select_event (od_order_id (received_order "order-9")) "package_prepared" empty_db = false
  /\ sh_pc (shipping_run_exec (shipping_run_start (received_order "order-9") empty_db)
              (map Attempt [Passes; Fails; Passes])) = PreparePackage.
Proof.
  assert (H1 : order_known (received_order "order-9") empty_db = false) by reflexivity.
  assert (H2 : select_event (od_order_id (received_order "order-9")) "package_prepared"
                 empty_db = false) by reflexivity.
  split; [exact H1|]. split; [exact H2|].
  apply (shipping_workflow_retries_unknown_order (received_order "order-9") empty_db
           [Passes; Fails; Passes] H1 H2).
Defined.

(* ----------------------------------------------------------------- *)
(** ** The states of the order rows *)

Lemma known_states_add_event : forall oid ty payload d d',
  add_event oid ty payload d = Ok d' -> known_states d -> known_states d'.
Proof.
  intros oid ty payload d d' H Hd. apply add_event_shape in H.
  destruct H as (k & _ & ->). exact Hd.
Qed.

Lemma known_states_set : forall k st d,
  In st order_states -> known_states d -> known_states (set_order_state k st d).
Proof.
  intros k st d Hst Hd. unfold known_states, set_order_state, set_orders. cbn [orders].
  apply Forall_map. apply Forall_impl with (2 := Hd). intros o Ho.
  destruct (o_id o =? k); [exact Hst | exact Ho].
Qed.

Lemma known_states_insert_payment : forall pid oid st amount d d' r,
  insert_payment_on_conflict_do_nothing pid oid st amount d = Ok (d', r) ->
  known_states d -> known_states d'.
Proof.
  intros pid oid st amount d d' r H Hd. apply insert_payment_keeps in H.
  destruct H as (_ & _ & Ho & _). unfold known_states. now rewrite Ho.
Qed.

Ltac states :=
  first
    [ assumption
    | match goal with
      | |- known_states (commit ?d0) => change (known_states d0); states
      | He : add_event _ _ _ _ = Ok ?d2 |- known_states ?d2 =>
        apply (known_states_add_event _ _ _ _ _ He); states
      | |- known_states (set_order_state _ _ _) =>
        apply known_states_set; [unfold order_states; simpl; tauto | states]
      | Hi : insert_payment_on_conflict_do_nothing _ _ _ _ _ = Ok (?d1, _)
        |- known_states ?d1 =>
        apply (known_states_insert_payment _ _ _ _ _ _ _ Hi); states
      | |- known_states (add_order _ _ _ _) =>
        unfold known_states, add_order, set_orders; cbn [orders];
        apply Forall_app; split;
        [assumption | repeat constructor; unfold order_states; simpl; tauto]
      end ].

Lemma run_operation_states : forall o d, known_states d -> known_states (run_operation o d).
Proof.
  intros o d Hd.
  assert (Hgen : forall (A : Type) (r : result A * DB),
             (forall a d', r = (a, d') -> known_states d') -> known_states (snd r)).
  { intros A [a d'] H. now apply (H a). }
  destruct o as [|k dr|order dr|order pid dr|order dr|order dr]; simpl;
    [exact Hd|apply Hgen; intros a d' H ..].
  - unfold order_received in H. destruct_matches_in H; inversion H; subst; states.
  - unfold order_validated in H. destruct_matches_in H; inversion H; subst; states.
  - unfold payment_charged in H. destruct_matches_in H; inversion H; subst; states.
  - unfold package_prepared in H. destruct_matches_in H; inversion H; subst; states.
  - unfold carrier_dispatched in H. destruct_matches_in H; inversion H; subst; states.
Qed.

(** X21. The saga writes three states only: if every order row is in state
    "received", "validated" or "paid", it is so after any events whatever.
    No step moves an order beyond "paid": neither shipping nor completion
    nor cancellation nor failure is recorded in the order row. *)
Theorem order_rows_keep_known_states :
  forall (s : Saga) (evs : list event),
    known_states (db s) -> known_states (db (exec s evs)).
Proof.
  intros s evs H. apply (exec_db_invariant known_states); [|exact H].
  intros o d. apply run_operation_states.
Qed.

Lemma order_rows_keep_known_states_witness :
  known_states (db (saga_init empty_db))
  /\ known_states (db (exec (saga_init empty_db) happy_path)).
Proof.
  assert (H : known_states (db (saga_init empty_db)))
    by (unfold known_states; simpl; constructor).
  split; [exact H | apply (order_rows_keep_known_states _ _ H)].
Defined.

(* ----------------------------------------------------------------- *)
(** ** api.py and run_workflow.py *)

Lemma append_nonempty : forall (a b : string), a <> ""%string -> (a ++ b)%string <> ""%string.
Proof. intros a b H. destruct a; [contradiction | discriminate]. Qed.

Lemma append_injective : forall (a b c : string), (a ++ b)%string = (a ++ c)%string -> b = c.
Proof.
  induction a as [|x a IH]; intros b c H; [exact H|].
  simpl in H. injection H as H. now apply IH.
Qed.

(** X22. The payment id under which a saga started through the API charges
    is never empty, so that it always passes the truth test made on the
    result of the insert: it is the id of the request when the request has
    a non-empty one and the generated "payment-..." otherwise.  The ids
    generated by run_workflow.py are not empty either, and two orders never
    share a workflow id. *)
Theorem api_identifiers :
  forall (order_id : string) (request : StartWorkflowRequest) (hex8 : string),
    chosen_payment_id request hex8 <> ""%string
    /\ scalar_truthy (Some (chosen_payment_id request hex8)) = true
    /\ (forall p, p <> ""%string ->
          chosen_payment_id {| req_payment_id := Some p |} hex8 = p)
    /\ chosen_payment_id {| req_payment_id := None |} hex8 = generated_payment_id hex8
    /\ chosen_payment_id {| req_payment_id := Some ""%string |} hex8
       = generated_payment_id hex8
    /\ generated_order_id hex8 <> ""%string
    /\ snd (start_workflow order_id request hex8)
       = Start order_id (chosen_payment_id request hex8)
    /\ (forall other, workflow_id order_id = workflow_id other -> order_id = other).
Proof.
  intros order_id request hex8.
  assert (Hne : chosen_payment_id request hex8 <> ""%string).
  { unfold chosen_payment_id, generated_payment_id.
    destruct (req_payment_id request) as [p|]; [|discriminate].
    destruct (p =? "")%string eqn:Hp; [discriminate|]. now apply String.eqb_neq. }
  conjuncts; try reflexivity.
  - exact Hne.
  - unfold scalar_truthy. apply String.eqb_neq in Hne. now rewrite Hne.
  - intros p Hp. unfold chosen_payment_id. cbn [req_payment_id].
    apply String.eqb_neq in Hp. now rewrite Hp.
  - discriminate.
  - intros other H. unfold workflow_id in H. now apply append_injective in H.
Qed.

Lemma api_identifiers_witness :
  chosen_payment_id {| req_payment_id := Some "pay-7"%string |} "0a1b2c3d" = "pay-7"%string.
Proof.
  destruct (api_identifiers "order-7" {| req_payment_id := Some "pay-7"%string |} "0a1b2c3d")
    as (_ & _ & H & _).
  apply H. discriminate.
Defined.

Lemma step_keeps_cancelled : forall s ev,
  _is_cancelled (wf s) = true -> _is_cancelled (wf (step s ev)) = true.
Proof.
  intros [p [o q od a c ph] d n] ev Hc. cbn in Hc. subst c.
  unfold step. fields. destruct (closed p) eqn:Hcl; [reflexivity|].
  destruct ev as [o' q'|sg|dr|e|].
  2:{ destruct sg; reflexivity. }
  all: unfold advance; fields.
  all: destruct p as [| | | | |pr child cpc|r|e']; try discriminate Hcl;
    try reflexivity.
  all: try (unfold shipping_step; destruct cpc).
  all: try match goal with
       | |- context [execute_activity ?act ?k ?ev ?d] =>
         destruct (execute_activity act k ev d) as [[[?|?|] ?] ?]
       end.
  all: run_on; try reflexivity.
  all: repeat match goal with
       | |- context [if ?b then _ else _] => destruct b; run_on
       end; reflexivity.
Qed.

Lemma exec_keeps_cancelled : forall evs s,
  _is_cancelled (wf s) = true -> _is_cancelled (wf (exec s evs)) = true.
Proof.
  induction evs as [|ev evs IH]; intros s H; [exact H|].
  rewrite exec_cons. now apply IH, step_keeps_cancelled.
Qed.

(** X23. What the endpoints send reaches the status.  For a saga that has
    not ended, the address posted to the address endpoint, a dictionary of
    the five fields of the request, is the address the status endpoint
    shows for as long as no other address is sent, and after a call of the
    cancel endpoint the status shows the cancellation flag for ever:
    nothing in the workflow unsets it. *)
Theorem endpoints_reach_the_status :
  forall (s : Saga) (address : AddressUpdateRequest) (later : list event),
    closed (pc s) = false ->
    (forallb keeps_address later = true ->
     st_shipping_address
       (get_workflow_status (exec (step s (update_address_endpoint address)) later))
     = address_dict address)
    /\ map fst (address_dict address) = ["street"; "city"; "state"; "postal_code"; "country"]
    /\ st_is_cancelled (get_workflow_status (exec (step s cancel_order_endpoint) later))
       = true.
Proof.
  intros s address later Hcl. conjuncts.
  - intros Hk. unfold get_workflow_status, get_status. cbn [st_shipping_address].
    rewrite (address_kept_exec later _ Hk). unfold update_address_endpoint.
    rewrite (step_signal s _ Hcl). reflexivity.
  - reflexivity.
  - unfold get_workflow_status, get_status. cbn [st_is_cancelled].
    apply exec_keeps_cancelled. unfold cancel_order_endpoint.
    rewrite (step_signal s _ Hcl). reflexivity.
Qed.

Lemma endpoints_reach_the_status_witness :
  closed (pc awaiting_dispatch) = false
  /\ st_is_cancelled
       (get_workflow_status (exec (step awaiting_dispatch cancel_order_endpoint)
                                  [Attempt Passes])) = true.
Proof.
  assert (H : closed (pc awaiting_dispatch) = false) by (vm_compute; reflexivity).
  split; [exact H|].
  apply (endpoints_reach_the_status awaiting_dispatch
           {| a_street := "1 Main St"; a_city := "Springfield"; a_state := "IL";
              a_postal_code := "62701"; a_country := "US" |} [Attempt Passes] H).
Defined.
